(** * apply_rules.py: reclassifying imbalanced GnuCash transactions by rule

    A shallow embedding of [apply_rules.py] and the properties its
    specification states about it.

    The script is glue over the GnuCash Python bindings.  The objects of the
    bindings (accounts, splits, transactions, the price database, the session)
    are modelled in [Module GnuCash] as handles into a book whose observable
    state is a record of getters; the script's own functions are then
    translated one by one, in the order of the source file.

    Python failures are explicit: a function that can raise returns a [res],
    and code that also mutates the ledger runs in the monad [M], which keeps
    the state reached when an exception is raised (Python does not roll
    back). *)

From Stdlib Require Import ZArith List String Ascii Bool Lia.
From Stdlib Require Import Floats.PrimFloat Floats.SpecFloat Floats.FloatOps.
Import ListNotations.

Local Open Scope string_scope.
Local Open Scope list_scope.
Local Open Scope Z_scope.

Set Implicit Arguments.

(* ================================================================== *)
(** * Python values and failures *)
(* ================================================================== *)

(** The exceptions the script can meet.  None of them is caught anywhere in
    the source. *)
Inductive exn : Type :=
| AssertionError   (* a failed [assert] *)
| AttributeError   (* a method called on [None] *)
| IndexError       (* [l[i]] or [l.pop(i)] out of range *)
| KeyError         (* [d[k]] with [k] absent *)
| ValueError       (* [datetime(...)] out of range, [int(nan)] *)
| OverflowError.   (* [int(inf)], [datetime(...)] beyond a C int *)

Inductive res (A : Type) : Type :=
| Ok (a : A)
| Raise (e : exn).
Arguments Ok {A} a.
Arguments Raise {A} e.

(** Sequencing of code that can raise: the first failure is the result. *)
Definition res_bind {A B} (c : res A) (k : A -> res B) : res B :=
  match c with Ok a => k a | Raise e => Raise e end.

Declare Scope res_scope.
Delimit Scope res_scope with R.
Notation "x <- c1 ;; c2" := (res_bind c1 (fun x => c2))
  (at level 61, c1 at next level, right associativity) : res_scope.
Notation "c1 ;;; c2" := (res_bind c1 (fun _ => c2))
  (at level 61, right associativity) : res_scope.

Definition is_ok {A} (r : res A) : bool :=
  match r with Ok _ => true | Raise _ => false end.

(** [o.method(...)] where [o] may be [None]. *)
Definition deref {A} (o : option A) : res A :=
  match o with Some a => Ok a | None => Raise AttributeError end.

(** [l[i]] on a Python list, for [i >= 0]. *)
Definition getitem {A} (l : list A) (i : nat) : res A :=
  match nth_error l i with Some a => Ok a | None => Raise IndexError end.

(** [[x for x in l if keep(x)]] where [keep] can raise: the first failure
    aborts the comprehension. *)
Fixpoint filter_res {A} (keep : A -> res bool) (l : list A) : res (list A) :=
  match l with
  | [] => Ok []
  | x :: l' =>
      (k <- keep x ;;
       rest <- filter_res keep l' ;;
       Ok (if k then x :: rest else rest))%R
  end.

(** ** Strings

    Python strings are modelled as byte strings (their UTF-8 encoding):
    equality, [startswith] with an ASCII prefix and [split] on an ASCII
    separator agree on both views. *)

(** [s.startswith(p)] *)
Definition startswith (s p : string) : bool := String.prefix p s.

(** [s.split(sep)] for a one-character separator: the pieces between the
    occurrences of [sep]; never empty. *)
Fixpoint split (sep : ascii) (s : string) : list string :=
  match s with
  | EmptyString => [EmptyString]
  | String c rest =>
      if Ascii.eqb c sep then EmptyString :: split sep rest
      else match split sep rest with
           | [] => [String c EmptyString]
           | w :: ws => String c w :: ws
           end
  end.

(** [sep.join(l)], used to state what [split] computes. *)
Fixpoint join (sep : ascii) (l : list string) : string :=
  match l with
  | [] => EmptyString
  | [w] => w
  | w :: l' => (w ++ String sep (join sep l'))%string
  end.

(** ** Dictionaries

    A Python [dict] keeps insertion order and has one entry per key: it is an
    association list in which assigning to a present key replaces the value in
    place, and assigning to a new key appends. *)
Definition dict (V : Type) : Type := list (string * V).

Fixpoint dict_get {V} (d : dict V) (k : string) : option V :=
  match d with
  | [] => None
  | (k', v) :: d' => if String.eqb k' k then Some v else dict_get d' k
  end.

Fixpoint dict_set {V} (d : dict V) (k : string) (v : V) : dict V :=
  match d with
  | [] => [(k, v)]
  | (k', v') :: d' =>
      if String.eqb k' k then (k', v) :: d' else (k', v') :: dict_set d' k v
  end.

Definition dict_keys {V} (d : dict V) : list string := map fst d.

(** [d[k]] *)
Definition dict_getitem {V} (d : dict V) (k : string) : res V :=
  match dict_get d k with Some v => Ok v | None => Raise KeyError end.

(** ** [datetime.datetime]

    A naive datetime; comparison is the lexicographic order of the seven
    fields, as in CPython. *)
Record datetime : Type := mk_datetime {
  dt_year : Z; dt_month : Z; dt_day : Z;
  dt_hour : Z; dt_minute : Z; dt_second : Z; dt_microsecond : Z
}.

Definition MINYEAR : Z := 1.
Definition MAXYEAR : Z := 9999.

Definition is_leap (y : Z) : bool :=
  (y mod 4 =? 0) && (negb (y mod 100 =? 0) || (y mod 400 =? 0)).

Definition days_in_month (y m : Z) : Z :=
  if m =? 2 then (if is_leap y then 29 else 28)
  else if (m =? 4) || (m =? 6) || (m =? 9) || (m =? 11) then 30
  else 31.

(** The range of a C [int], to which the constructor converts its
    arguments. *)
Definition INT_MIN : Z := -2147483648.
Definition INT_MAX : Z := 2147483647.

Definition fits_c_int (z : Z) : bool := (INT_MIN <=? z) && (z <=? INT_MAX).

(** [datetime(year, month, day)]: midnight of that day.  The arguments are
    first converted to C integers, [OverflowError] when one does not fit;
    then a field out of range is a [ValueError]. *)
Definition datetime_new (year month day : Z) : res datetime :=
  if negb (fits_c_int year && fits_c_int month && fits_c_int day)
  then Raise OverflowError
  else if (MINYEAR <=? year) && (year <=? MAXYEAR)
          && (1 <=? month) && (month <=? 12)
          && (1 <=? day) && (day <=? days_in_month year month)
  then Ok (mk_datetime year month day 0 0 0 0)
  else Raise ValueError.

Definition datetime_fields (d : datetime) : list Z :=
  [dt_year d; dt_month d; dt_day d;
   dt_hour d; dt_minute d; dt_second d; dt_microsecond d].

Fixpoint lex_compare (a b : list Z) : comparison :=
  match a, b with
  | [], [] => Eq
  | [], _ :: _ => Lt
  | _ :: _, [] => Gt
  | x :: a', y :: b' =>
      match x ?= y with
      | Eq => lex_compare a' b'
      | c => c
      end
  end.

Definition datetime_compare (a b : datetime) : comparison :=
  lex_compare (datetime_fields a) (datetime_fields b).

(** [a < b] and [a >= b] *)
Definition datetime_lt (a b : datetime) : bool :=
  match datetime_compare a b with Lt => true | _ => false end.
Definition datetime_ge (a b : datetime) : bool := negb (datetime_lt a b).

(** What the constructor guarantees of every datetime object. *)
Definition datetime_valid (d : datetime) : Prop :=
  MINYEAR <= dt_year d <= MAXYEAR /\ 1 <= dt_month d <= 12 /\
  1 <= dt_day d <= days_in_month (dt_year d) (dt_month d) /\
  0 <= dt_hour d < 24 /\ 0 <= dt_minute d < 60 /\
  0 <= dt_second d < 60 /\ 0 <= dt_microsecond d < 1000000.

(** ** Floats

    Python's [float] is IEEE 754 binary64, which is what [PrimFloat] is. *)

(** [float(z)] / the C conversion [(double) z]: the nearest binary64. *)
Definition float_of_Z (z : Z) : float :=
  SF2Prim (binary_normalize prec emax z 0 false).

(** [int(x)]: truncation towards zero; raises on infinities and NaN. *)
Definition py_int (x : float) : res Z :=
  match Prim2SF x with
  | S754_zero _ => Ok 0
  | S754_finite s m e =>
      let mag := if 0 <=? e then Z.pos m * 2 ^ e else Z.pos m / 2 ^ (- e) in
      Ok (if s then - mag else mag)
  | S754_infinity _ => Raise OverflowError
  | S754_nan => Raise ValueError
  end.

(* ================================================================== *)
(** * The GnuCash Python bindings, as the script uses them *)
(* ================================================================== *)

(** The library is not part of the script.  Its objects are handles; what the
    script can observe of a book is the record [Book] of getters below, and
    the two setters the script calls update exactly the field they name.
    A binding method that returns an object returns [None] when the
    underlying C function returns [NULL] ([lookup_by_name] and
    [lookup_nearest_in_time64] when nothing is found). *)
Module GnuCash.

Definition Account : Type := nat.
Definition Split : Type := nat.
Definition Transaction : Type := nat.

Record Commodity : Type := mk_Commodity {
  get_namespace : string;
  get_mnemonic : string
}.

(** A rational [num/denom]. *)
Record GncNumeric : Type := mk_GncNumeric { num : Z; denom : Z }.

(** [GncNumeric.to_double()]: the quotient of the two conversions; a
    non-positive denominator stands for a multiplier. *)
Definition to_double (n : GncNumeric) : float :=
  if 0 <? denom n
  then PrimFloat.div (float_of_Z (num n)) (float_of_Z (denom n))
  else float_of_Z (num n * - denom n).

Record GncPrice : Type := mk_GncPrice { get_value : GncNumeric }.

(** The price database, seen through its one method
    [lookup_nearest_in_time64(commodity, currency, date)]. *)
Definition GncPriceDB : Type :=
  Commodity -> Commodity -> datetime -> option GncPrice.

Record Book : Type := mk_Book {
  get_root_account : Account;
  (* Account *)
  Account_GetName : Account -> string;
  Account_GetCommodity : Account -> Commodity;
  Account_lookup_by_name : Account -> string -> option Account;
  (* Split; every split lies in an account *)
  all_splits : list Split;
  Split_parent : Split -> Transaction;
  Split_GetAccount : Split -> Account;
  Split_GetAmount : Split -> GncNumeric;
  (* Transaction *)
  Transaction_GetSplitList : Transaction -> list Split;
  Transaction_GetDate : Transaction -> datetime;
  Transaction_GetDescription : Transaction -> string;
  (* the book's price database *)
  get_price_db : GncPriceDB
}.

(** [account.GetSplitList()]: the splits of the book that lie in the
    account (the field [all_splits] fixes the order in which they are
    listed). *)
Definition Account_GetSplitList (b : Book) (a : Account) : list Split :=
  filter (fun s => Nat.eqb (Split_GetAccount b s) a) (all_splits b).

Definition update {V} (f : nat -> V) (k : nat) (v : V) : nat -> V :=
  fun k' => if Nat.eqb k' k then v else f k'.

(** [split.SetAccount(account)].  With [None] the C function returns at
    its argument check and the split stays where it is. *)
Definition Split_SetAccount (b : Book) (s : Split) (a : option Account)
  : Book :=
  match a with
  | None => b
  | Some a =>
      mk_Book (get_root_account b)
        (Account_GetName b) (Account_GetCommodity b)
        (Account_lookup_by_name b)
        (all_splits b) (Split_parent b)
        (update (Split_GetAccount b) s a)
        (Split_GetAmount b)
        (Transaction_GetSplitList b) (Transaction_GetDate b)
        (Transaction_GetDescription b) (get_price_db b)
  end.

(** [split.SetAmount(amount)] *)
Definition Split_SetAmount (b : Book) (s : Split) (n : GncNumeric) : Book :=
  mk_Book (get_root_account b)
    (Account_GetName b) (Account_GetCommodity b)
    (Account_lookup_by_name b)
    (all_splits b) (Split_parent b)
    (Split_GetAccount b)
    (update (Split_GetAmount b) s n)
    (Transaction_GetSplitList b) (Transaction_GetDate b)
    (Transaction_GetDescription b) (get_price_db b).

(** What a run does to the outside world, in order: the lines printed, the
    calls that edit the ledger, and the session's save and end. *)
Inductive Event : Type :=
| Printed (line : string)
| PrintedTxn (date : datetime) (description : string) (amount : float)
| BeginEdit (t : Transaction)
| SetAccount (s : Split) (a : option Account)
| SetAmount (s : Split) (n : GncNumeric)
| CommitEdit (t : Transaction)
| Save
| End_.

End GnuCash.
Import GnuCash.

(* ================================================================== *)
(** * The state of a run *)
(* ================================================================== *)

(** The open book, the script's global [PriceDb] ([None] until [main] sets
    it) and the trace of effects so far. *)
Record World : Type := mk_World {
  book : Book;
  PriceDb : option GncPriceDB;
  trace : list Event
}.

(** Code that reads and edits the ledger and can raise.  The world is
    returned in both cases: an exception leaves the edits made before it. *)
Definition M (A : Type) : Type := World -> res A * World.

Definition M_ret {A} (a : A) : M A := fun w => (Ok a, w).

Definition M_bind {A B} (c : M A) (k : A -> M B) : M B :=
  fun w => match c w with
           | (Ok a, w') => k a w'
           | (Raise e, w') => (Raise e, w')
           end.

Declare Scope M_scope.
Delimit Scope M_scope with M.
Notation "x <- c1 ;; c2" := (M_bind c1 (fun x => c2))
  (at level 61, c1 at next level, right associativity) : M_scope.
Notation "c1 ;;; c2" := (M_bind c1 (fun _ => c2))
  (at level 61, right associativity) : M_scope.

(** A computation that only reads the book. *)
Definition reading {A} (f : Book -> res A) : M A :=
  fun w => (f (book w), w).

Definition read_PriceDb : M (option GncPriceDB) :=
  fun w => (Ok (PriceDb w), w).

Definition set_PriceDb (db : GncPriceDB) : M unit :=
  fun w => (Ok tt, mk_World (book w) (Some db) (trace w)).

Definition emit (e : Event) : M unit :=
  fun w => (Ok tt, mk_World (book w) (PriceDb w) (trace w ++ [e])).

Definition edit (f : Book -> Book) : M unit :=
  fun w => (Ok tt, mk_World (f (book w)) (PriceDb w) (trace w)).

(** [for x in l: body(x)] *)
Fixpoint for_each {A} (l : list A) (body : A -> M unit) : M unit :=
  match l with
  | [] => M_ret tt
  | x :: l' => (body x ;;; for_each l' body)%M
  end.

(** The binding methods that change the world. *)
Definition do_BeginEdit (t : Transaction) : M unit := emit (BeginEdit t).
Definition do_CommitEdit (t : Transaction) : M unit := emit (CommitEdit t).
Definition do_SetAccount (s : Split) (a : option Account) : M unit :=
  (edit (fun b => Split_SetAccount b s a) ;;; emit (SetAccount s a))%M.
Definition do_SetAmount (s : Split) (n : GncNumeric) : M unit :=
  (edit (fun b => Split_SetAmount b s n) ;;; emit (SetAmount s n))%M.

(** A value computed without the world, or a failure raised. *)
Definition lift {A} (r : res A) : M A := fun w => (r, w).

(** [assert c] *)
Definition assert (c : bool) : M unit :=
  lift (if c then Ok tt else Raise AssertionError).

(* ================================================================== *)
(** * apply_rules.py *)
(* ================================================================== *)

Definition ACCOUNTS_TO_SCAN_KEY : string := "Accounts to scan".
Definition RULES_KEY : string := "Rules".

(** The rules document as [yaml.safe_load] returns it: a mapping that may or
    may not have each of the two keys the script reads. *)
Record RulesDoc : Type := mk_RulesDoc {
  doc_accounts_to_scan : option (list string);
  doc_rules : option (dict (list string))
}.

(** [rules[key]] for the two keys. *)
Definition RulesDoc_accounts (rules : RulesDoc) : res (list string) :=
  match doc_accounts_to_scan rules with
  | Some l => Ok l
  | None => Raise KeyError
  end.
Definition RulesDoc_rules (rules : RulesDoc) : res (dict (list string)) :=
  match doc_rules rules with
  | Some d => Ok d
  | None => Raise KeyError
  end.

(** The inner function of [account_lookup_by_path]; [account] is whatever
    the previous lookup returned, [None] included. *)
Fixpoint _account_lookup_by_path (b : Book) (account : option Account)
    (path : list string) : res (option Account) :=
  match path with
  | [] => Raise IndexError                               (* path.pop(0) *)
  | name :: path =>
      (a <- deref account ;;
       let child := Account_lookup_by_name b a name in
       if Nat.eqb (List.length path) 0 then Ok child
       else _account_lookup_by_path b child path)%R
  end.

Definition account_lookup_by_path (b : Book) (account : option Account)
    (path_str : string) : res (option Account) :=
  _account_lookup_by_path b account (split ":" path_str).

Definition filter_out (dt : datetime) (year month : Z) : res bool :=
  (dt1 <- datetime_new year month 1 ;;
   dt2 <- (if month =? 12
           then datetime_new (year + 1) 1 1
           else datetime_new year (month + 1) 1) ;;
   Ok (datetime_lt dt dt1 || datetime_ge dt dt2))%R.

Definition get_transactions (b : Book) (account : option Account)
    (year month : Z) : res (list Transaction) :=
  (a <- deref account ;;
   kept <- filter_res
             (fun split =>
                out <- filter_out (Transaction_GetDate b (Split_parent b split))
                                  year month ;;
                Ok (negb out))
             (Account_GetSplitList b a) ;;
   Ok (map (Split_parent b) kept))%R.

Definition is_split_imbalanced (b : Book) (split : Split) : bool :=
  let name := Account_GetName b (Split_GetAccount b split) in
  startswith name "Imbalance-".

Definition is_imbalanced (b : Book) (txn : Transaction) : bool :=
  let imbalanced :=
    filter (is_split_imbalanced b) (Transaction_GetSplitList b txn) in
  negb (Nat.eqb (List.length imbalanced) 0).

Definition print_txn (txn : Transaction) : M unit :=
  (line <- reading (fun b =>
             let dts := Transaction_GetDate b txn in
             split <- getitem (Transaction_GetSplitList b txn) 0 ;;
             let amount := to_double (Split_GetAmount b split) in
             Ok (PrintedTxn dts (Transaction_GetDescription b txn) amount))%R ;;
   emit line)%M.

Definition accounts_eq_commodities (b : Book) (src_account : Account)
    (dst_account : option Account) : res bool :=
  (let src := get_mnemonic (Account_GetCommodity b src_account) in
   d <- deref dst_account ;;
   let dst := get_mnemonic (Account_GetCommodity b d) in
   Ok (String.eqb src dst))%R.

Definition get_exchange_rate (src_account : Account)
    (dst_account : option Account) (date : datetime) : M float :=
  (comm <- reading (fun b => Ok (Account_GetCommodity b src_account)) ;;
   curr <- reading (fun b => d <- deref dst_account ;;
                             Ok (Account_GetCommodity b d))%R ;;
   db <- read_PriceDb ;;
   lookup_nearest_in_time64 <- lift (deref db) ;;
   let price := lookup_nearest_in_time64 comm curr date in
   p <- lift (deref price) ;;
   let value := get_value p in
   M_ret (to_double (mk_GncNumeric (num value) (denom value))))%M.

Definition set_dst_account (txn : Transaction) (dst_account : option Account)
  : M unit :=
  (print_txn txn ;;;
   splits <- reading (fun b => Ok (Transaction_GetSplitList b txn)) ;;
   assert (Nat.eqb (List.length splits) 2) ;;;
   (* identify source and destination splits *)
   splits_0 <- lift (getitem splits 0) ;;
   imb <- reading (fun b => Ok (is_split_imbalanced b splits_0)) ;;
   sd <- lift (if imb : bool
               then (src <- getitem splits 1 ;; Ok (src, splits_0))%R
               else (dst <- getitem splits 1 ;; Ok (splits_0, dst))%R) ;;
   let src := fst sd in
   let dst := snd sd in
   src_account <- reading (fun b => Ok (Split_GetAccount b src)) ;;
   do_BeginEdit txn ;;;
   do_SetAccount dst dst_account ;;;
   eq <- reading (fun b => accounts_eq_commodities b src_account dst_account) ;;
   (if negb eq
    then
      date <- reading (fun b => Ok (Transaction_GetDate b txn)) ;;
      exchange_rate <- get_exchange_rate src_account dst_account date ;;
      amount <- reading (fun b => Ok (to_double (Split_GetAmount b dst))) ;;
      n <- lift (py_int (PrimFloat.mul (PrimFloat.mul amount exchange_rate)
                                       (float_of_Z 1000))) ;;
      do_SetAmount dst (mk_GncNumeric n 1000)
    else M_ret tt) ;;;
   do_CommitEdit txn)%M.

Definition apply_rule (txns : list Transaction) (description : string)
    (dst_account : option Account) : M unit :=
  (txns <- reading (fun b =>
             Ok (filter (fun txn =>
                           String.eqb (Transaction_GetDescription b txn)
                                      description)
                        txns)) ;;
   for_each txns (fun txn => set_dst_account txn dst_account))%M.

(** The comprehension assigns [key: target] entry by entry, in the order of
    [config.items()] and, within one target, of its list. *)
Definition rules2darules (config : dict (list string)) : dict string :=
  fold_left
    (fun d (item : string * list string) =>
       let (target, descs) := item in
       fold_left (fun d key => dict_set d key target) descs d)
    config [].

(** The body of the loop of [process], for one [account_path]. *)
Definition process_account (root : Account) (da_rules : dict string)
    (year month : Z) (account_path : string) : M unit :=
  (emit (Printed account_path) ;;;
   account <- reading (fun b =>
                account_lookup_by_path b (Some root) account_path) ;;
   txns <- reading (fun b => get_transactions b account year month) ;;
   txns <- reading (fun b => Ok (filter (is_imbalanced b) txns)) ;;
   for_each da_rules
     (fun (item : string * string) =>
        let (desc, dst_account_path) := item in
        dst_account <- reading (fun b =>
                         account_lookup_by_path b (Some root)
                                                dst_account_path) ;;
        apply_rule txns desc dst_account))%M.

Definition process (root : Account) (rules : RulesDoc) (year month : Z)
  : M unit :=
  (config <- lift (RulesDoc_rules rules) ;;
   let da_rules := rules2darules config in
   accounts <- lift (RulesDoc_accounts rules) ;;
   for_each accounts (process_account root da_rules year month))%M.

(** [Session.__exit__] of the bindings: it saves unless the block raised,
    and ends the session in both cases; the exception goes on. *)
Definition Session_exit {A} (r : res A) : M unit :=
  ((if is_ok r then emit Save else M_ret tt) ;;;
   emit End_)%M.

(** [with Session(...) as session: body] on a session that opened. *)
Definition with_Session {A} (body : M A) : M A :=
  fun w =>
    let (r, w') := body w in
    let (_, w'') := Session_exit r w' in
    (r, w'').

(** [main], from the point where the arguments are parsed, the rules file is
    loaded and the session is open on the book of the initial world. *)
Definition main (rules : RulesDoc) (year month : Z) : M unit :=
  with_Session
    (root <- reading (fun b => Ok (get_root_account b)) ;;
     db <- reading (fun b => Ok (get_price_db b)) ;;
     set_PriceDb db ;;;
     process root rules year month ;;;
     emit Save)%M.

(* ================================================================== *)
(** * Reference notions the properties are stated with *)
(* ================================================================== *)

(** The first instant of a month, and of the month after it. *)
Definition month_start (year month : Z) : datetime :=
  mk_datetime year month 1 0 0 0 0.

Definition next_month_start (year month : Z) : datetime :=
  if month =? 12 then month_start (year + 1) 1
  else month_start year (month + 1).

(** From the first instant of the month on, and before the first instant of
    the next one. *)
Definition within_month (dt : datetime) (year month : Z) : bool :=
  datetime_ge dt (month_start year month)
  && datetime_lt dt (next_month_start year month).

(** Both boundaries of the month can be built as datetimes. *)
Definition month_representable (year month : Z) : Prop :=
  MINYEAR <= year <= MAXYEAR /\ 1 <= month <= 12 /\
  ~ (year = MAXYEAR /\ month = 12).

(** Looking up each component in order, starting from [start]; [None] as
    soon as a component is not found. *)
Fixpoint walk (b : Book) (start : option Account) (names : list string)
  : option Account :=
  match names with
  | [] => start
  | name :: names' =>
      match start with
      | Some a => walk b (Account_lookup_by_name b a name) names'
      | None => None
      end
  end.

Fixpoint has_colon (s : string) : bool :=
  match s with
  | EmptyString => false
  | String c s' => Ascii.eqb c ":" || has_colon s'
  end.

(** The (trigger, destination) assignments of a configuration, in the order
    in which the mapping is iterated. *)
Definition assignments (config : dict (list string)) : list (string * string) :=
  flat_map (fun item : string * list string =>
              map (fun key => (key, fst item)) (snd item))
           config.

(** The value the last assignment to [k] in [l] gives it. *)
Fixpoint last_assigned {V} (l : list (string * V)) (k : string) : option V :=
  match l with
  | [] => None
  | (k', v) :: l' =>
      match last_assigned l' k with
      | Some v' => Some v'
      | None => if String.eqb k' k then Some v else None
      end
  end.

(** No trigger is listed under two different destinations. *)
Definition triggers_unique (config : dict (list string)) : Prop :=
  forall t1 ds1 t2 ds2 key,
    In (t1, ds1) config -> In (t2, ds2) config ->
    In key ds1 -> In key ds2 -> t1 = t2.

(** The commodity mnemonic [accounts_eq_commodities] compares. *)
Definition mnemonic_of (b : Book) (a : Account) : string :=
  get_mnemonic (Account_GetCommodity b a).

(** The numerator [set_dst_account] gives the destination split when it
    converts: the split's amount times the value of the price the database
    returns for (source commodity, destination commodity) at the date of the
    transaction, in thousandths. *)
Definition converted (w : World) (src_account d : Account)
    (txn : Transaction) (dst : Split) : res Z :=
  (db <- deref (PriceDb w) ;;
   p <- deref (db (Account_GetCommodity (book w) src_account)
                  (Account_GetCommodity (book w) d)
                  (Transaction_GetDate (book w) txn)) ;;
   py_int (PrimFloat.mul
             (PrimFloat.mul (to_double (Split_GetAmount (book w) dst))
                            (to_double (get_value p)))
             (float_of_Z 1000)))%R.

(** The line [print_txn] prints, given the first split. *)
Definition printed_txn (b : Book) (txn : Transaction) (s0 : Split) : Event :=
  PrintedTxn (Transaction_GetDate b txn) (Transaction_GetDescription b txn)
             (to_double (Split_GetAmount b s0)).

(** Two books that differ at most in the accounts and amounts of splits. *)
Definition same_frame (b b' : Book) : Prop :=
  get_root_account b' = get_root_account b /\
  Account_GetName b' = Account_GetName b /\
  Account_GetCommodity b' = Account_GetCommodity b /\
  Account_lookup_by_name b' = Account_lookup_by_name b /\
  all_splits b' = all_splits b /\
  Split_parent b' = Split_parent b /\
  Transaction_GetSplitList b' = Transaction_GetSplitList b /\
  Transaction_GetDate b' = Transaction_GetDate b /\
  Transaction_GetDescription b' = Transaction_GetDescription b /\
  get_price_db b' = get_price_db b.

(** What an event does to the book. *)
Definition apply_event (b : Book) (e : Event) : Book :=
  match e with
  | SetAccount s a => Split_SetAccount b s a
  | SetAmount s n => Split_SetAmount b s n
  | _ => b
  end.

Definition replay (evs : list Event) (b : Book) : Book :=
  fold_left apply_event evs b.

(** What a step of a run may do: edit splits, and add to the trace the
    events that account for the edits. *)
Definition extends (w w' : World) (evs : list Event) : Prop :=
  same_frame (book w) (book w') /\ PriceDb w' = PriceDb w /\
  trace w' = trace w ++ evs /\ book w' = replay evs (book w).

(** A split of the book belongs to the transaction that lists it. *)
Definition parents_consistent (b : Book) : Prop :=
  forall t s, In s (Transaction_GetSplitList b t) -> Split_parent b s = t.

(** The transactions one scan of [account] selects: reached from a split of
    the account, dated within the month, with a split in an imbalance
    account. *)
Definition selected (b : Book) (account : Account) (year month : Z)
    (t : Transaction) : Prop :=
  (exists s, In s (Account_GetSplitList b account) /\ Split_parent b s = t) /\
  within_month (Transaction_GetDate b t) year month = true /\
  is_imbalanced b t = true.

Definition is_edit (e : Event) : bool :=
  match e with
  | BeginEdit _ | SetAccount _ _ | SetAmount _ _ | CommitEdit _ => true
  | _ => false
  end.

(** The two events of the session, as opposed to those of the run proper. *)
Definition is_session_event (e : Event) : bool :=
  match e with
  | Save | End_ => true
  | _ => false
  end.

(** Every account of the book is in a commodity of the same mnemonic. *)
Definition single_currency (b : Book) : Prop :=
  forall a a', mnemonic_of b a = mnemonic_of b a'.

(** A computation that only adds events satisfying [P] to the trace. *)
Definition only_emits {A} (P : Event -> bool) (c : M A) : Prop :=
  forall w r w', c w = (r, w') ->
    exists evs, trace w' = trace w ++ evs /\ forallb P evs = true.

Definition run_event (e : Event) : bool := negb (is_session_event e).

(** Every split of the book belongs to a transaction of two splits. *)
Definition two_splits_each (b : Book) : Prop :=
  forall s, In s (all_splits b) ->
    List.length (Transaction_GetSplitList b (Split_parent b s)) = 2%nat.

(** Events that set an amount only where they also set an account. *)
Definition amounts_follow_accounts (evs : list Event) : Prop :=
  forall s n, In (SetAmount s n) evs -> exists a, In (SetAccount s a) evs.

(* ================================================================== *)
(** * A small ledger to run the script on *)
(* ================================================================== *)

Module Demo.

Definition PLN : Commodity := mk_Commodity "CURRENCY" "PLN".
Definition EUR : Commodity := mk_Commodity "CURRENCY" "EUR".

(** The chart of accounts:
<<
    0 Root Account
      1 Assets
        2 Bank            (PLN)
      3 Expenses
        4 Food            (PLN)
        5 Travel          (EUR)
      6 Imbalance-PLN     (PLN)
>> *)
Definition name (a : Account) : string :=
  match a with
  | 0%nat => "Root Account" | 1%nat => "Assets" | 2%nat => "Bank"
  | 3%nat => "Expenses" | 4%nat => "Food" | 5%nat => "Travel"
  | _ => "Imbalance-PLN"
  end.

Definition commodity (a : Account) : Commodity :=
  match a with 5%nat => EUR | _ => PLN end.

Definition children (a : Account) : list Account :=
  match a with
  | 0%nat => [1; 3; 6]%nat | 1%nat => [2]%nat | 3%nat => [4; 5]%nat
  | _ => []
  end.

(** The children first, then the descendants of each child. *)
Fixpoint lookup (depth : nat) (a : Account) (n : string) : option Account :=
  match depth with
  | O => None
  | S depth' =>
      match find (fun c => String.eqb (name c) n) (children a) with
      | Some c => Some c
      | None =>
          fold_left (fun found c =>
                       match found with
                       | Some x => Some x
                       | None => lookup depth' c n
                       end)
                    (children a) None
      end
  end.

Definition at_ (y m d h mi s : Z) : datetime := mk_datetime y m d h mi s 0.

(** Five transactions of the bank account, each with its two splits:
<<
    10  2026-03-05 12:30:00  LIDL     100 Bank -50.00    101 Imbalance-PLN  50.00
    11  2026-03-20 09:00:00  RYANAIR  102 Imbalance-PLN 400.00  103 Bank -400.00
    12  2026-04-01 00:00:00  LIDL     104 Bank -20.00    105 Imbalance-PLN  20.00
    13  2026-03-31 23:59:59  SALARY   106 Bank 900.00    107 Assets       -900.00
    14  2026-03-01 00:00:00  LIDL     108 Bank  -7.50    109 Imbalance-PLN   7.50
>>
    Every other transaction handle has no split. *)
Definition splits_of (t : Transaction) : list Split :=
  match t with
  | 10%nat => [100; 101]%nat | 11%nat => [102; 103]%nat
  | 12%nat => [104; 105]%nat | 13%nat => [106; 107]%nat
  | 14%nat => [108; 109]%nat
  | _ => []
  end.

Definition parent (s : Split) : Transaction :=
  match s with
  | 100%nat | 101%nat => 10%nat
  | 102%nat | 103%nat => 11%nat
  | 104%nat | 105%nat => 12%nat
  | 106%nat | 107%nat => 13%nat
  | 108%nat | 109%nat => 14%nat
  | _ => 0%nat
  end.

Definition account_of (s : Split) : Account :=
  match s with
  | 100%nat | 103%nat | 104%nat | 106%nat | 108%nat => 2%nat
  | 107%nat => 1%nat
  | _ => 6%nat
  end.

Definition amount_of (s : Split) : GncNumeric :=
  match s with
  | 100%nat => mk_GncNumeric (-5000) 100 | 101%nat => mk_GncNumeric 5000 100
  | 102%nat => mk_GncNumeric 40000 100 | 103%nat => mk_GncNumeric (-40000) 100
  | 104%nat => mk_GncNumeric (-2000) 100 | 105%nat => mk_GncNumeric 2000 100
  | 106%nat => mk_GncNumeric 90000 100 | 107%nat => mk_GncNumeric (-90000) 100
  | 108%nat => mk_GncNumeric (-750) 100 | 109%nat => mk_GncNumeric 750 100
  | _ => mk_GncNumeric 0 1
  end.

Definition date_of (t : Transaction) : datetime :=
  match t with
  | 10%nat => at_ 2026 3 5 12 30 0
  | 11%nat => at_ 2026 3 20 9 0 0
  | 12%nat => at_ 2026 4 1 0 0 0
  | 13%nat => at_ 2026 3 31 23 59 59
  | _ => at_ 2026 3 1 0 0 0
  end.

Definition description_of (t : Transaction) : string :=
  match t with
  | 11%nat => "RYANAIR"
  | 13%nat => "SALARY"
  | _ => "LIDL"
  end.

(** One zloty is a quarter of a euro, whatever the date; no other price. *)
Definition prices : GncPriceDB :=
  fun comm curr _ =>
    if String.eqb (get_mnemonic comm) "PLN"
       && String.eqb (get_mnemonic curr) "EUR"
    then Some (mk_GncPrice (mk_GncNumeric 25 100))
    else None.

Definition ledger : Book :=
  mk_Book 0%nat name commodity (lookup 3)
    [100; 101; 102; 103; 104; 105; 106; 107; 108; 109]%nat
    parent account_of amount_of
    splits_of date_of description_of
    prices.

(** The same ledger with a sixth transaction of the bank account that has
    three splits:
<<
    15  2026-03-10 08:00:00  LIDL  110 Bank -30.00  111 Imbalance-PLN 10.00  112 Food 20.00
>> *)
Definition ledger3 : Book :=
  mk_Book 0%nat name commodity (lookup 3)
    [100; 101; 102; 103; 104; 105; 106; 107; 108; 109; 110; 111; 112]%nat
    (fun s => match s with
              | 110%nat | 111%nat | 112%nat => 15%nat
              | _ => parent s
              end)
    (fun s => match s with
              | 110%nat => 2%nat | 111%nat => 6%nat | 112%nat => 4%nat
              | _ => account_of s
              end)
    (fun s => match s with
              | 110%nat => mk_GncNumeric (-3000) 100
              | 111%nat => mk_GncNumeric 1000 100
              | 112%nat => mk_GncNumeric 2000 100
              | _ => amount_of s
              end)
    (fun t => match t with
              | 15%nat => [110; 111; 112]%nat
              | _ => splits_of t
              end)
    (fun t => match t with
              | 15%nat => at_ 2026 3 10 8 0 0
              | _ => date_of t
              end)
    description_of
    prices.

(** The first ledger with every account in zlotys. *)
Definition ledger_pln : Book :=
  mk_Book 0%nat name (fun _ => PLN) (lookup 3)
    [100; 101; 102; 103; 104; 105; 106; 107; 108; 109]%nat
    parent account_of amount_of
    splits_of date_of description_of
    prices.

Definition rules : RulesDoc :=
  mk_RulesDoc
    (Some ["Assets:Bank"])
    (Some [("Expenses:Food", ["LIDL"; "BIEDRONKA"]);
           ("Expenses:Travel", ["RYANAIR"])]).


(** A session just opened on a book; [PriceDb] is still [None]. *)
Definition opened (b : Book) : World := mk_World b None [].

(** The same once [main] has set [PriceDb]. *)
Definition running (b : Book) : World :=
  mk_World b (Some (get_price_db b)) [].

End Demo.

(* ================================================================== *)
(** * Strings and dictionaries *)
(* ================================================================== *)

Lemma split_nonempty : forall sep s, split sep s <> [].
Proof.
  intros sep s; destruct s as [|c s]; simpl; [discriminate|].
  destruct (Ascii.eqb c sep); [discriminate|].
  destruct (split sep s); discriminate.
Qed.

(** The pieces, joined again, are the string. *)
Lemma join_split : forall sep s, join sep (split sep s) = s.
Proof.
  intros sep s; induction s as [|c s IH]; simpl; [reflexivity|].
  destruct (Ascii.eqb c sep) eqn:E.
  - apply Ascii.eqb_eq in E; subst c.
    destruct (split sep s) as [|w ws] eqn:S.
    + exfalso; exact (split_nonempty _ _ S).
    + simpl in *. rewrite IH. reflexivity.
  - destruct (split sep s) as [|w ws] eqn:S.
    + exfalso; exact (split_nonempty _ _ S).
    + simpl in *. destruct ws; simpl in *; rewrite <- IH; reflexivity.
Qed.

Lemma split_no_colon : forall s,
  has_colon s = false -> split ":" s = [s].
Proof.
  induction s as [|c s IH]; simpl; intros H; [reflexivity|].
  apply orb_false_iff in H; destruct H as [Hc Hs].
  rewrite Hc, (IH Hs); reflexivity.
Qed.

Lemma split_app_colon : forall s rest,
  has_colon s = false ->
  split ":" (s ++ String ":" rest) = s :: split ":" rest.
Proof.
  induction s as [|c s IH]; simpl; intros rest H; [reflexivity|].
  apply orb_false_iff in H; destruct H as [Hc Hs].
  rewrite Hc, (IH rest Hs); reflexivity.
Qed.

(** Splitting a joined list of colon-free components gives the components. *)
Lemma split_join : forall names,
  names <> [] -> forallb (fun n => negb (has_colon n)) names = true ->
  split ":" (join ":" names) = names.
Proof.
  induction names as [|n names IH]; intros Hne Hall; [congruence|].
  simpl in Hall. apply andb_true_iff in Hall; destruct Hall as [Hn Hrest].
  apply negb_true_iff in Hn.
  destruct names as [|n' names'].
  - simpl. apply split_no_colon; assumption.
  - change (join ":" (n :: n' :: names'))
      with (n ++ String ":" (join ":" (n' :: names')))%string.
    rewrite split_app_colon by assumption.
    rewrite IH; [reflexivity|discriminate|assumption].
Qed.

Lemma dict_get_set : forall V (d : dict V) k v k',
  dict_get (dict_set d k v) k' =
  if String.eqb k k' then Some v else dict_get d k'.
Proof.
  induction d as [|[k0 v0] d IH]; intros k v k'; simpl.
  - reflexivity.
  - destruct (String.eqb k0 k) eqn:E0; simpl.
    + apply String.eqb_eq in E0; subst k0.
      destruct (String.eqb k k'); reflexivity.
    + destruct (String.eqb k0 k') eqn:E1.
      * apply String.eqb_eq in E1; subst k0. rewrite String.eqb_sym, E0.
        reflexivity.
      * apply IH.
Qed.

Lemma dict_keys_set : forall V (d : dict V) k v k',
  In k' (dict_keys (dict_set d k v)) <-> k' = k \/ In k' (dict_keys d).
Proof.
  unfold dict_keys.
  induction d as [|[k0 v0] d IH]; intros k v k'; simpl.
  - intuition.
  - destruct (String.eqb k0 k) eqn:E0; simpl.
    + apply String.eqb_eq in E0; subst k0. intuition.
    + rewrite IH. intuition.
Qed.

Lemma dict_set_NoDup : forall V (d : dict V) k v,
  NoDup (dict_keys d) -> NoDup (dict_keys (dict_set d k v)).
Proof.
  unfold dict_keys.
  induction d as [|[k0 v0] d IH]; intros k v H; simpl.
  - constructor; [intros []|constructor].
  - inversion H as [|? ? Hnin Hnd]; subst.
    destruct (String.eqb k0 k) eqn:E0; simpl.
    + constructor; assumption.
    + constructor; [|apply IH; assumption].
      intros Hin. apply (dict_keys_set d k v k0) in Hin.
      destruct Hin as [->|Hin]; [|exact (Hnin Hin)].
      rewrite String.eqb_refl in E0; discriminate.
Qed.

(** In a dictionary, being an entry and being the value of the key agree. *)
Lemma dict_get_In : forall V (d : dict V) k v,
  NoDup (dict_keys d) -> (In (k, v) d <-> dict_get d k = Some v).
Proof.
  unfold dict_keys.
  induction d as [|[k0 v0] d IH]; intros k v H; simpl.
  - split; [intros []|discriminate].
  - inversion H as [|? ? Hnin Hnd]; subst.
    destruct (String.eqb k0 k) eqn:E0.
    + apply String.eqb_eq in E0; subst k0. split.
      * intros [E|Hin]; [congruence|].
        exfalso; apply Hnin. apply (in_map fst) in Hin. exact Hin.
      * intros E; left; congruence.
    + rewrite <- (IH k v Hnd). split.
      * intros [E|Hin]; [|assumption].
        inversion E; subst. rewrite String.eqb_refl in E0; discriminate.
      * intros Hin; right; assumption.
Qed.

(* ================================================================== *)
(** * Month filtering *)
(* ================================================================== *)

Lemma filter_res_total : forall A (keep : A -> res bool) (f : A -> bool) l,
  (forall x, keep x = Ok (f x)) -> filter_res keep l = Ok (filter f l).
Proof.
  intros A keep f l H; induction l as [|x l IH]; simpl; [reflexivity|].
  rewrite H, IH; simpl. destruct (f x); reflexivity.
Qed.

Lemma days_in_month_pos : forall y m, 1 <= days_in_month y m.
Proof.
  intros y m; unfold days_in_month.
  destruct (m =? 2); [destruct (is_leap y); lia|].
  destruct ((m =? 4) || (m =? 6) || (m =? 9) || (m =? 11)); lia.
Qed.

Lemma fits_c_int_small : forall z,
  -10000 <= z <= 10000 -> fits_c_int z = true.
Proof.
  intros z Hz. unfold fits_c_int, INT_MIN, INT_MAX.
  apply andb_true_intro; split; apply Z.leb_le; lia.
Qed.

Lemma datetime_new_first : forall year month,
  MINYEAR <= year <= MAXYEAR -> 1 <= month <= 12 ->
  datetime_new year month 1 = Ok (month_start year month).
Proof.
  intros year month Hy Hm; unfold datetime_new.
  pose proof (days_in_month_pos year month) as Hd.
  unfold MINYEAR, MAXYEAR in Hy.
  rewrite !fits_c_int_small by lia. simpl negb. cbv iota.
  unfold MINYEAR, MAXYEAR.
  replace (1 <=? year) with true by (symmetry; apply Z.leb_le; lia).
  replace (year <=? 9999) with true by (symmetry; apply Z.leb_le; lia).
  replace (1 <=? month) with true by (symmetry; apply Z.leb_le; lia).
  replace (month <=? 12) with true by (symmetry; apply Z.leb_le; lia).
  replace (1 <=? days_in_month year month) with true
    by (symmetry; apply Z.leb_le; lia).
  reflexivity.
Qed.

Lemma datetime_new_range : forall year month day d,
  datetime_new year month day = Ok d -> MINYEAR <= year <= MAXYEAR.
Proof.
  intros year month day d; unfold datetime_new.
  destruct (negb _); [discriminate|].
  destruct (MINYEAR <=? year) eqn:E1; simpl; [|discriminate].
  destruct (year <=? MAXYEAR) eqn:E2; simpl; [|discriminate].
  intros _. apply Z.leb_le in E1, E2. lia.
Qed.

(** [filter_out] is the complement of [within_month] whenever the two
    boundaries exist. *)
Lemma filter_out_within : forall dt year month,
  month_representable year month ->
  filter_out dt year month = Ok (negb (within_month dt year month)).
Proof.
  intros dt year month (Hy & Hm & Hlast).
  unfold filter_out, within_month, next_month_start.
  rewrite (datetime_new_first Hy Hm); simpl.
  destruct (month =? 12) eqn:E.
  - apply Z.eqb_eq in E.
    rewrite datetime_new_first by (unfold MINYEAR, MAXYEAR in *; lia); simpl.
    unfold datetime_ge. rewrite negb_andb, negb_involutive. reflexivity.
  - apply Z.eqb_neq in E.
    rewrite datetime_new_first by lia; simpl.
    unfold datetime_ge. rewrite negb_andb, negb_involutive. reflexivity.
Qed.

Ltac split_compares :=
  repeat match goal with
         | |- context [ ?x ?= ?y ] => destruct (Z.compare_spec x y)
         end.

(** On datetimes as the constructor builds them, lying between the two
    boundaries is having the year and the month asked for. *)
Lemma within_month_calendar : forall dt year month,
  datetime_valid dt -> 1 <= month <= 12 ->
  (within_month dt year month = true <->
   dt_year dt = year /\ dt_month dt = month).
Proof.
  intros [y m d h mi s us] year month Hv Hm.
  unfold datetime_valid in Hv; simpl in Hv.
  unfold within_month, next_month_start, datetime_ge, datetime_lt,
    datetime_compare, datetime_fields, month_start.
  destruct (month =? 12) eqn:E;
    [apply Z.eqb_eq in E | apply Z.eqb_neq in E];
    simpl; rewrite andb_true_iff, negb_true_iff;
    split_compares; split; intros; try (intuition (try discriminate; lia)).
Qed.

Lemma get_transactions_within : forall b a year month,
  month_representable year month ->
  get_transactions b (Some a) year month =
  Ok (map (Split_parent b)
        (filter (fun s => within_month
                            (Transaction_GetDate b (Split_parent b s))
                            year month)
                (Account_GetSplitList b a))).
Proof.
  intros b a year month H; unfold get_transactions; simpl.
  rewrite filter_res_total
    with (f := fun s => within_month
                          (Transaction_GetDate b (Split_parent b s)) year month).
  - reflexivity.
  - intros s. rewrite filter_out_within by assumption; simpl.
    rewrite negb_involutive; reflexivity.
Qed.

(** C3, as amended: for every datetime and every year and month in 1..12
    whose two month boundaries exist as datetimes (every year of 1..9999,
    December 9999 excepted), [filter_out] returns True exactly when the
    datetime is before the first instant of the month or at or after the
    first instant of the following month (January of the next year after
    December); so [get_transactions] keeps exactly the parents of the splits
    dated from the first instant of the month up to, and not including, the
    first instant of the next, which for a datetime object is having that
    year and that month. *)
Theorem filter_out_calendar_month : forall dt year month,
  MINYEAR <= year <= MAXYEAR -> 1 <= month <= 12 ->
  ~ (year = MAXYEAR /\ month = 12) ->
  filter_out dt year month
  = Ok (datetime_lt dt (month_start year month)
        || datetime_ge dt (if month =? 12 then month_start (year + 1) 1
                           else month_start year (month + 1)))
  /\ (datetime_valid dt ->
      (filter_out dt year month = Ok false <->
       dt_year dt = year /\ dt_month dt = month))
  /\ (forall b a,
        get_transactions b (Some a) year month
        = Ok (map (Split_parent b)
                (filter (fun s => within_month
                                    (Transaction_GetDate b (Split_parent b s))
                                    year month)
                        (Account_GetSplitList b a)))).
Proof.
  intros dt year month Hy Hm Hlast.
  assert (Hrep : month_representable year month) by (repeat split; tauto).
  split; [|split].
  - rewrite filter_out_within by assumption.
    unfold within_month, next_month_start, datetime_ge.
    rewrite negb_andb, negb_involutive. reflexivity.
  - intros Hv. rewrite filter_out_within by assumption.
    rewrite <- (within_month_calendar year Hv Hm).
    destruct (within_month dt year month); simpl; split; congruence.
  - intros b a. apply get_transactions_within; assumption.
Qed.

Lemma filter_out_calendar_month_witness :
  filter_out (Demo.at_ 2026 3 31 23 59 59) 2026 3 = Ok false
  /\ filter_out (Demo.at_ 2026 4 1 0 0 0) 2026 3 = Ok true
  /\ get_transactions Demo.ledger (Some 2%nat) 2026 3
     = Ok [10; 11; 13; 14]%nat.
Proof.
  assert (Hy : MINYEAR <= 2026 <= MAXYEAR) by (unfold MINYEAR, MAXYEAR; lia).
  assert (Hm : 1 <= 3 <= 12) by lia.
  assert (Hl : ~ (2026 = MAXYEAR /\ 3 = 12)) by lia.
  split; [|split].
  - rewrite (proj1 (filter_out_calendar_month
                      (Demo.at_ 2026 3 31 23 59 59) Hy Hm Hl)).
    reflexivity.
  - rewrite (proj1 (filter_out_calendar_month
                      (Demo.at_ 2026 4 1 0 0 0) Hy Hm Hl)).
    reflexivity.
  - rewrite (proj2 (proj2 (filter_out_calendar_month
                             (Demo.at_ 2026 3 1 0 0 0) Hy Hm Hl))).
    reflexivity.
Defined.

(** C3 as stated fails for December 9999: the first instant of the following
    month is [datetime(10000, 1, 1)], which Python refuses, so [filter_out]
    raises instead of returning, and [get_transactions] with it as soon as
    the account has a split. *)
Lemma filter_out_december_9999 :
  filter_out (mk_datetime 9999 12 15 0 0 0 0) 9999 12 = Raise ValueError
  /\ get_transactions Demo.ledger (Some 2%nat) 9999 12 = Raise ValueError.
Proof. split; reflexivity. Qed.

(* ================================================================== *)
(** * Path lookup *)
(* ================================================================== *)

Lemma walk_app : forall b names1 names2 start,
  walk b start (names1 ++ names2) = walk b (walk b start names1) names2.
Proof.
  induction names1 as [|n names1 IH]; intros names2 start; simpl.
  - reflexivity.
  - destruct start as [a|]; [apply IH|].
    destruct names2; reflexivity.
Qed.

(** The recursion looks the components up in order; only the last lookup may
    come back empty without a failure. *)
Lemma lookup_path_walk : forall b names last start,
  _account_lookup_by_path b start (names ++ [last]) =
  match walk b start names with
  | Some a => Ok (Account_lookup_by_name b a last)
  | None => Raise AttributeError
  end.
Proof.
  induction names as [|n names IH]; intros last start; simpl.
  - destruct start; reflexivity.
  - destruct start as [a|]; simpl; [|reflexivity].
    replace (Nat.eqb (List.length (names ++ [last])) 0) with false.
    + apply IH.
    + symmetry; apply Nat.eqb_neq. rewrite length_app; simpl.
      rewrite Nat.add_comm; discriminate.
Qed.

(** C4: for every book and every path string made of colon-free components
    joined by colons, if looking the components up in order from the root
    finds an account at each step, [account_lookup_by_path] returns the
    account the last lookup reaches. *)
Theorem account_lookup_by_path_resolves : forall b root names target,
  names <> [] ->
  forallb (fun n => negb (has_colon n)) names = true ->
  walk b (Some root) names = Some target ->
  account_lookup_by_path b (Some root) (join ":" names) = Ok (Some target).
Proof.
  intros b root names target Hne Hcolon Hwalk.
  unfold account_lookup_by_path. rewrite split_join by assumption.
  destruct (exists_last Hne) as (init & last & ->).
  rewrite lookup_path_walk. rewrite walk_app in Hwalk. simpl in Hwalk.
  destruct (walk b (Some root) init) as [a|]; [|discriminate].
  rewrite Hwalk. reflexivity.
Qed.

Lemma account_lookup_by_path_resolves_witness :
  account_lookup_by_path Demo.ledger (Some 0%nat) "Expenses:Travel"
  = Ok (Some 5%nat).
Proof.
  apply (@account_lookup_by_path_resolves Demo.ledger 0%nat
           ["Expenses"; "Travel"] 5%nat).
  - discriminate.
  - reflexivity.
  - reflexivity.
Defined.

(** On any path string: the components but the last must all be found, else
    the next lookup is a call on [None]; the result is what the last lookup
    returns, [None] included. *)
Lemma account_lookup_by_path_split : forall b start path_str,
  exists init last,
    split ":" path_str = init ++ [last] /\
    account_lookup_by_path b start path_str =
    match walk b start init with
    | Some a => Ok (Account_lookup_by_name b a last)
    | None => Raise AttributeError
    end.
Proof.
  intros b start path_str.
  destruct (exists_last (@split_nonempty ":" path_str)) as (init & last & E).
  exists init, last. split; [assumption|].
  unfold account_lookup_by_path. rewrite E. apply lookup_path_walk.
Qed.

(* ================================================================== *)
(** * The rules table *)
(* ================================================================== *)

Definition assign (d : dict string) (kv : string * string) : dict string :=
  dict_set d (fst kv) (snd kv).

Lemma rules2darules_fold : forall config d,
  fold_left
    (fun d (item : string * list string) =>
       let (target, descs) := item in
       fold_left (fun d key => dict_set d key target) descs d)
    config d
  = fold_left assign (assignments config) d.
Proof.
  unfold assignments.
  induction config as [|[target descs] config IH]; intros d; simpl.
  - reflexivity.
  - rewrite fold_left_app, IH. f_equal.
    clear IH. revert d. induction descs as [|key descs IHd]; intros d; simpl.
    + reflexivity.
    + apply IHd.
Qed.

Lemma fold_assign_get : forall l d k,
  dict_get (fold_left assign l d) k =
  match last_assigned l k with
  | Some v => Some v
  | None => dict_get d k
  end.
Proof.
  induction l as [|[k' v] l IH]; intros d k; simpl.
  - reflexivity.
  - rewrite IH. destruct (last_assigned l k); [reflexivity|].
    unfold assign; simpl. rewrite dict_get_set.
    destruct (String.eqb k' k); reflexivity.
Qed.

Lemma fold_assign_keys : forall l d k,
  In k (dict_keys (fold_left assign l d)) <->
  In k (map fst l) \/ In k (dict_keys d).
Proof.
  induction l as [|[k' v] l IH]; intros d k; simpl.
  - intuition.
  - rewrite IH. unfold assign; simpl. rewrite dict_keys_set. intuition.
Qed.

Lemma fold_assign_NoDup : forall l d,
  NoDup (dict_keys d) -> NoDup (dict_keys (fold_left assign l d)).
Proof.
  induction l as [|[k' v] l IH]; intros d H; simpl; [assumption|].
  apply IH. apply dict_set_NoDup. assumption.
Qed.

Lemma rules2darules_get : forall config k,
  dict_get (rules2darules config) k = last_assigned (assignments config) k.
Proof.
  intros config k. unfold rules2darules.
  rewrite rules2darules_fold, fold_assign_get.
  destruct (last_assigned (assignments config) k); reflexivity.
Qed.

Lemma rules2darules_NoDup : forall config,
  NoDup (dict_keys (rules2darules config)).
Proof.
  intros config. unfold rules2darules. rewrite rules2darules_fold.
  apply fold_assign_NoDup. constructor.
Qed.

Lemma last_assigned_app : forall V (l1 l2 : list (string * V)) k,
  last_assigned (l1 ++ l2) k =
  match last_assigned l2 k with
  | Some v => Some v
  | None => last_assigned l1 k
  end.
Proof.
  induction l1 as [|[k' v] l1 IH]; intros l2 k; simpl.
  - destruct (last_assigned l2 k); reflexivity.
  - rewrite IH. destruct (last_assigned l2 k); reflexivity.
Qed.

Lemma last_assigned_In : forall V (l : list (string * V)) k v,
  last_assigned l k = Some v -> In (k, v) l.
Proof.
  induction l as [|[k' v'] l IH]; intros k v; simpl; [discriminate|].
  destruct (last_assigned l k) eqn:E.
  - intros H; right; apply IH; congruence.
  - destruct (String.eqb k' k) eqn:Ek; [|discriminate].
    apply String.eqb_eq in Ek; subst k'. intros H; left; congruence.
Qed.

Lemma last_assigned_None : forall V (l : list (string * V)) k,
  last_assigned l k = None <-> ~ In k (map fst l).
Proof.
  induction l as [|[k' v'] l IH]; intros k; simpl.
  - intuition.
  - destruct (last_assigned l k) eqn:E.
    + split; [discriminate|]. intros H; exfalso; apply H; right.
      apply last_assigned_In in E. apply (in_map fst) in E. exact E.
    + destruct (String.eqb k' k) eqn:Ek.
      * apply String.eqb_eq in Ek; subst k'.
        split; [discriminate|]. intros H; exfalso; apply H; left; reflexivity.
      * apply String.eqb_neq in Ek. rewrite IH in E. intuition.
Qed.

Lemma assignments_In : forall config key target,
  In (key, target) (assignments config) <->
  exists descs, In (target, descs) config /\ In key descs.
Proof.
  intros config key target. unfold assignments. rewrite in_flat_map. split.
  - intros ([t ds] & Hin & Hk). simpl in Hk. apply in_map_iff in Hk.
    destruct Hk as (k & E & Hk). inversion E; subst. exists ds; split; assumption.
  - intros (descs & Hin & Hk). exists (target, descs). split; [assumption|].
    simpl. apply in_map_iff. exists key; split; [reflexivity|assumption].
Qed.

Lemma assignments_app : forall c1 c2,
  assignments (c1 ++ c2) = assignments c1 ++ assignments c2.
Proof. intros; unfold assignments; apply flat_map_app. Qed.

(** C10: whatever else the configuration lists, a trigger is mapped to the
    destination of its last occurrence in iteration order, and the result
    has one entry, hence one destination, per trigger. *)
Theorem rules2darules_last_wins :
  forall config before target descs after key,
    config = before ++ (target, descs) :: after ->
    In key descs ->
    (forall target' descs', In (target', descs') after -> ~ In key descs') ->
    dict_get (rules2darules config) key = Some target
    /\ NoDup (dict_keys (rules2darules config))
    /\ (forall d, In (key, d) (rules2darules config) -> d = target).
Proof.
  intros config before target descs after key -> Hin Hafter.
  assert (Hget : dict_get (rules2darules
                             (before ++ (target, descs) :: after)) key
                 = Some target).
  { rewrite rules2darules_get.
    change ((target, descs) :: after) with ([(target, descs)] ++ after).
    rewrite !assignments_app, !last_assigned_app.
    replace (last_assigned (assignments after) key) with (@None string).
    - destruct (last_assigned (assignments [(target, descs)]) key) as [v|] eqn:E.
      + apply last_assigned_In, assignments_In in E.
        destruct E as (ds & [E|[]] & _). congruence.
      + exfalso. apply last_assigned_None in E. apply E.
        apply in_map_iff. exists (key, target). split; [reflexivity|].
        apply assignments_In. exists descs. split; [left; reflexivity|assumption].
    - symmetry. apply last_assigned_None. intros H.
      apply in_map_iff in H. destruct H as ([k t] & E & H). simpl in E; subst k.
      apply assignments_In in H. destruct H as (ds & H1 & H2).
      exact (Hafter _ _ H1 H2). }
  split; [exact Hget|]. split; [apply rules2darules_NoDup|].
  intros d Hd. apply dict_get_In in Hd; [|apply rules2darules_NoDup].
  congruence.
Qed.

Lemma rules2darules_last_wins_witness :
  dict_get (rules2darules [("Expenses:Food", ["LIDL"; "ORLEN"]);
                           ("Expenses:Car", ["ORLEN"]);
                           ("Expenses:Travel", ["RYANAIR"])]) "ORLEN"
  = Some "Expenses:Car".
Proof.
  apply (@rules2darules_last_wins
           [("Expenses:Food", ["LIDL"; "ORLEN"]);
            ("Expenses:Car", ["ORLEN"]);
            ("Expenses:Travel", ["RYANAIR"])]
           [("Expenses:Food", ["LIDL"; "ORLEN"])]
           "Expenses:Car" ["ORLEN"]
           [("Expenses:Travel", ["RYANAIR"])] "ORLEN").
  - reflexivity.
  - simpl; left; reflexivity.
  - intros t ds [E|[]]. inversion E; subst. simpl. intros [H|[]]. discriminate.
Defined.

(** C8, as amended: for every configuration in which no trigger is listed
    under two different destinations, every (destination, trigger) pair of
    the input yields the entry trigger -> destination, and the result has no
    other keys than the triggers of the input. *)
Theorem rules2darules_entries : forall config,
  triggers_unique config ->
  (forall target descs key,
      In (target, descs) config -> In key descs ->
      dict_get (rules2darules config) key = Some target)
  /\ (forall key,
        In key (dict_keys (rules2darules config)) ->
        exists target descs, In (target, descs) config /\ In key descs).
Proof.
  intros config Huniq. split.
  - intros target descs key Hin Hkey. rewrite rules2darules_get.
    destruct (last_assigned (assignments config) key) as [v|] eqn:E.
    + apply last_assigned_In, assignments_In in E.
      destruct E as (ds & H1 & H2).
      rewrite (Huniq _ _ _ _ _ H1 Hin H2 Hkey). reflexivity.
    + exfalso. apply last_assigned_None in E. apply E.
      apply in_map_iff. exists (key, target). split; [reflexivity|].
      apply assignments_In. exists descs. split; assumption.
  - intros key Hkey. unfold rules2darules in Hkey.
    rewrite rules2darules_fold in Hkey. apply fold_assign_keys in Hkey.
    destruct Hkey as [Hkey|[]].
    apply in_map_iff in Hkey. destruct Hkey as ([k t] & E & H).
    simpl in E; subst k. apply assignments_In in H.
    destruct H as (ds & H1 & H2). exists t, ds. split; assumption.
Qed.

Lemma rules2darules_entries_witness :
  dict_get (rules2darules [("Expenses:Food", ["LIDL"; "BIEDRONKA"]);
                           ("Expenses:Travel", ["RYANAIR"])]) "BIEDRONKA"
  = Some "Expenses:Food".
Proof.
  refine (proj1 (@rules2darules_entries
                   [("Expenses:Food", ["LIDL"; "BIEDRONKA"]);
                    ("Expenses:Travel", ["RYANAIR"])] _)
                "Expenses:Food" ["LIDL"; "BIEDRONKA"] "BIEDRONKA" _ _).
  - intros t1 ds1 t2 ds2 key H1 H2 K1 K2. simpl in H1, H2.
    destruct H1 as [E1|[E1|[]]]; destruct H2 as [E2|[E2|[]]];
      inversion E1; inversion E2; subst; simpl in K1, K2;
      try reflexivity;
      repeat match goal with
             | H : _ \/ _ |- _ => destruct H
             | H : False |- _ => destruct H
             end; subst; discriminate.
  - left; reflexivity.
  - right; left; reflexivity.
Defined.

(** C8 as stated fails when a trigger is listed under two destinations: the
    pair (A, x) is in the input, yet the output maps x to B. *)
Lemma rules2darules_overwrites :
  let config := [("A", ["x"]); ("B", ["x"])] in
  In ("A", ["x"]) config /\ In "x" ["x"]
  /\ dict_get (rules2darules config) "x" = Some "B"
  /\ dict_get (rules2darules config) "x" <> Some "A".
Proof.
  simpl. repeat split; try (left; reflexivity). discriminate.
Qed.

(* ================================================================== *)
(** * Reassigning one transaction *)
(* ================================================================== *)

Ltac run_M :=
  unfold set_dst_account, print_txn, get_exchange_rate, do_BeginEdit,
    do_SetAccount, do_SetAmount, do_CommitEdit, assert, M_bind, M_ret,
    reading, lift, emit, edit, read_PriceDb, res_bind, getitem,
    accounts_eq_commodities, deref;
  simpl.

(** With no split, [print_txn] already fails. *)
Lemma set_dst_account_no_split : forall w txn dst_account,
  Transaction_GetSplitList (book w) txn = [] ->
  set_dst_account txn dst_account w = (Raise IndexError, w).
Proof.
  intros [b pdb tr] txn dst_account Hs; simpl in *.
  run_M. rewrite Hs. reflexivity.
Qed.

(** With one split, or three and more, the assertion fails after the line
    is printed. *)
Lemma set_dst_account_not_two : forall w txn dst_account s0 rest,
  Transaction_GetSplitList (book w) txn = s0 :: rest ->
  List.length rest <> 1%nat ->
  set_dst_account txn dst_account w =
  (Raise AssertionError,
   mk_World (book w) (PriceDb w)
            (trace w ++ [printed_txn (book w) txn s0])).
Proof.
  intros [b pdb tr] txn dst_account s0 rest Hs Hlen; simpl in *.
  unfold printed_txn. run_M. repeat (progress (rewrite ?Hs; simpl)).
  destruct rest as [|s1 [|s2 rest]]; simpl in *;
    try reflexivity; congruence.
Qed.

(** With two splits and a destination: the closed form of the run. *)
Lemma set_dst_account_two_splits : forall w txn d s0 s1,
  Transaction_GetSplitList (book w) txn = [s0; s1] ->
  let b := book w in
  let imb := is_split_imbalanced b s0 in
  let dst := if imb then s0 else s1 in
  let src := if imb then s1 else s0 in
  let src_account := Split_GetAccount b src in
  let b1 := Split_SetAccount b dst (Some d) in
  let evs := [printed_txn b txn s0; BeginEdit txn; SetAccount dst (Some d)] in
  set_dst_account txn (Some d) w =
  if String.eqb (mnemonic_of b src_account) (mnemonic_of b d)
  then (Ok tt, mk_World b1 (PriceDb w) (trace w ++ evs ++ [CommitEdit txn]))
  else match converted w src_account d txn dst with
       | Ok n =>
           (Ok tt,
            mk_World (Split_SetAmount b1 dst (mk_GncNumeric n 1000))
              (PriceDb w)
              (trace w ++ evs ++ [SetAmount dst (mk_GncNumeric n 1000);
                                  CommitEdit txn]))
       | Raise e => (Raise e, mk_World b1 (PriceDb w) (trace w ++ evs))
       end.
Proof.
  intros [b pdb tr] txn d s0 s1 Hs; simpl in *.
  unfold converted, mnemonic_of, printed_txn. run_M.
  repeat (progress (rewrite ?Hs; simpl)).
  destruct (is_split_imbalanced b s0) eqn:Eimb; simpl;
    repeat (progress (rewrite ?Hs; simpl));
    match goal with
    | |- context [String.eqb ?x ?y] => destruct (String.eqb x y)
    end; simpl; rewrite <- ?app_assoc; simpl; try reflexivity.
  all: destruct pdb as [db|]; simpl; try reflexivity.
  all: destruct (db _ _ _) as [[[n dn]]|]; simpl; try reflexivity.
  all: destruct (py_int _); simpl; rewrite <- ?app_assoc; reflexivity.
Qed.

(** With two splits and [None] for a destination: the split stays where it
    is and comparing the commodities fails. *)
Lemma set_dst_account_two_splits_None : forall w txn s0 s1,
  Transaction_GetSplitList (book w) txn = [s0; s1] ->
  let b := book w in
  let dst := if is_split_imbalanced b s0 then s0 else s1 in
  set_dst_account txn None w =
  (Raise AttributeError,
   mk_World b (PriceDb w)
     (trace w ++ [printed_txn b txn s0; BeginEdit txn; SetAccount dst None])).
Proof.
  intros [b pdb tr] txn s0 s1 Hs; simpl in *.
  unfold printed_txn. run_M.
  repeat (progress (rewrite ?Hs; simpl)).
  destruct (is_split_imbalanced b s0) eqn:Eimb; simpl;
    repeat (progress (rewrite ?Hs; simpl));
    rewrite <- ?app_assoc; reflexivity.
Qed.

Lemma same_frame_refl : forall b, same_frame b b.
Proof. intros b; unfold same_frame; repeat split; reflexivity. Qed.

Lemma same_frame_trans : forall b1 b2 b3,
  same_frame b1 b2 -> same_frame b2 b3 -> same_frame b1 b3.
Proof.
  unfold same_frame; intros b1 b2 b3 H1 H2.
  destruct H1 as (?&?&?&?&?&?&?&?&?&?), H2 as (?&?&?&?&?&?&?&?&?&?).
  repeat split; congruence.
Qed.

Lemma same_frame_SetAccount : forall b s a,
  same_frame b (Split_SetAccount b s a).
Proof.
  intros b s [a|]; unfold same_frame; simpl; repeat split; reflexivity.
Qed.

Lemma same_frame_SetAmount : forall b s n,
  same_frame b (Split_SetAmount b s n).
Proof. intros b s n; unfold same_frame; simpl; repeat split; reflexivity. Qed.

Lemma extends_refl : forall w, extends w w [].
Proof.
  intros w; unfold extends; split; [apply same_frame_refl|].
  split; [reflexivity|]. rewrite app_nil_r; split; reflexivity.
Qed.

Lemma extends_trans : forall w1 w2 w3 evs1 evs2,
  extends w1 w2 evs1 -> extends w2 w3 evs2 -> extends w1 w3 (evs1 ++ evs2).
Proof.
  unfold extends;
    intros w1 w2 w3 evs1 evs2 (F1 & P1 & T1 & R1) (F2 & P2 & T2 & R2).
  split; [eapply same_frame_trans; eassumption|].
  split; [congruence|]. split; [rewrite T2, T1, app_assoc; reflexivity|].
  unfold replay in *. rewrite fold_left_app, <- R1. exact R2.
Qed.

Ltac solve_extends :=
  unfold extends; simpl;
  repeat split;
  try reflexivity;
  try apply same_frame_refl;
  try apply same_frame_SetAccount;
  try (eapply same_frame_trans;
       [apply same_frame_SetAccount | apply same_frame_SetAmount]).

Ltac in_events H :=
  unfold printed_txn in H; simpl in H;
  repeat match type of H with
         | _ \/ _ => destruct H as [H|H]; [try discriminate H|]
         | False => destruct H
         end;
  try (inversion H; subst; clear H).

(** Whatever the transaction and the outcome: the run only edits splits and
    adds events; a [SetAccount] among them is on a split of the transaction
    and to the destination given; and a run that completes has made one. *)
Lemma set_dst_account_extends : forall txn dst_account w r w',
  set_dst_account txn dst_account w = (r, w') ->
  exists evs,
    extends w w' evs
    /\ (forall s a, In (SetAccount s a) evs ->
          a = dst_account /\ In s (Transaction_GetSplitList (book w) txn))
    /\ (r = Ok tt ->
        exists s d, dst_account = Some d
                    /\ In s (Transaction_GetSplitList (book w) txn)
                    /\ In (SetAccount s (Some d)) evs).
Proof.
  intros txn dst_account w r w' H.
  destruct (Transaction_GetSplitList (book w) txn)
    as [|s0 [|s1 [|s2 rest]]] eqn:Hs.
  - rewrite set_dst_account_no_split in H by assumption.
    inversion H; subst. exists []. split; [apply extends_refl|].
    split; [intros s a []|discriminate].
  - rewrite (@set_dst_account_not_two w txn dst_account s0 []) in H
      by (assumption || (simpl; congruence)).
    inversion H; subst. eexists. split; [solve_extends|].
    split; [intros s a Hin; in_events Hin|discriminate].
  - destruct dst_account as [d|].
    + rewrite (set_dst_account_two_splits w txn d Hs) in H.
      assert (Hdst : In (if is_split_imbalanced (book w) s0 then s0 else s1)
                        [s0; s1])
        by (destruct (is_split_imbalanced (book w) s0); simpl; auto).
      destruct (String.eqb _ _).
      * inversion H; subst. eexists. split; [solve_extends|].
        split.
        -- intros s a Hin. in_events Hin. split; [reflexivity|assumption].
        -- intros _. eexists _, d. split; [reflexivity|].
           split; [exact Hdst|]. simpl; auto.
      * destruct (converted _ _ _ _ _) as [n|e].
        -- inversion H; subst. eexists. split; [solve_extends|].
           split.
           ++ intros s a Hin. in_events Hin. split; [reflexivity|assumption].
           ++ intros _. eexists _, d. split; [reflexivity|].
              split; [exact Hdst|]. simpl; auto.
        -- inversion H; subst. eexists. split; [solve_extends|].
           split; [|discriminate].
           intros s a Hin. in_events Hin. split; [reflexivity|assumption].
    + rewrite (set_dst_account_two_splits_None w txn Hs) in H.
      inversion H; subst. eexists. split; [solve_extends|].
      split; [|discriminate].
      intros s a Hin. in_events Hin. split; [reflexivity|].
      destruct (is_split_imbalanced (book w) s0); simpl; auto.
  - rewrite (@set_dst_account_not_two w txn dst_account s0 (s1 :: s2 :: rest))
      in H by (assumption || (simpl; congruence)).
    inversion H; subst. eexists. split; [solve_extends|].
    split; [intros s a Hin; in_events Hin|discriminate].
Qed.

(** What [set_dst_account] does by the number of splits: with any number
    but two it fails before any edit (the book is unchanged and nothing but
    the printed line is added to the trace); with two the assertion passes
    and one of the two splits is given the destination. *)
Lemma set_dst_account_by_split_count : forall w txn dst_account,
  let splits := Transaction_GetSplitList (book w) txn in
  let r := fst (set_dst_account txn dst_account w) in
  let w' := snd (set_dst_account txn dst_account w) in
  (List.length splits <> 2%nat ->
     book w' = book w /\ PriceDb w' = PriceDb w
     /\ (exists printed, trace w' = trace w ++ printed
                         /\ forall e, In e printed -> is_edit e = false)
     /\ (splits <> [] -> r = Raise AssertionError)
     /\ (splits = [] -> r = Raise IndexError))
  /\ (List.length splits = 2%nat ->
      r <> Raise AssertionError
      /\ exists dst more,
           In dst splits
           /\ trace w' = trace w
                ++ [printed_txn (book w) txn (hd dst splits);
                    BeginEdit txn; SetAccount dst dst_account] ++ more).
Proof.
  intros w txn dst_account splits r w'. subst r w'.
  split; intros Hlen.
  - destruct splits as [|s0 rest] eqn:Hs; subst splits.
    + rewrite set_dst_account_no_split by assumption; simpl.
      repeat split; try congruence.
      exists []. rewrite app_nil_r. split; [reflexivity|intros e []].
    + rewrite (@set_dst_account_not_two w txn dst_account s0 rest)
        by (assumption || (simpl in Hlen; congruence)); simpl.
      repeat split; try congruence.
      eexists. split; [reflexivity|].
      intros e [<-|[]]; reflexivity.
  - destruct splits as [|s0 [|s1 [|s2 rest]]] eqn:Hs; subst splits;
      simpl in Hlen; try discriminate.
    destruct dst_account as [d|].
    + rewrite (set_dst_account_two_splits w txn d Hs).
      assert (Hdst : In (if is_split_imbalanced (book w) s0 then s0 else s1)
                        [s0; s1])
        by (destruct (is_split_imbalanced (book w) s0); simpl; auto).
      destruct (String.eqb _ _); simpl.
      * split; [discriminate|]. eexists _, _. split; [exact Hdst|].
        simpl. reflexivity.
      * destruct (converted _ _ _ _ _) as [n|e] eqn:Hc; simpl.
        -- split; [discriminate|]. eexists _, _. split; [exact Hdst|].
           simpl. reflexivity.
        -- split.
           ++ unfold converted, res_bind, deref in Hc.
              destruct (PriceDb w) as [db|]; [|congruence].
              destruct (db _ _ _); [|congruence].
              unfold py_int in Hc. destruct (Prim2SF _); congruence.
           ++ eexists _, []. split; [exact Hdst|]. reflexivity.
    + rewrite (set_dst_account_two_splits_None w txn Hs); simpl.
      split; [discriminate|]. eexists _, [].
      split; [|reflexivity].
      destruct (is_split_imbalanced (book w) s0); simpl; auto.
Qed.

(** A transaction that passes [is_imbalanced] has a split; so has every
    transaction of the list [process] hands to [apply_rule]. *)
Lemma is_imbalanced_has_split : forall b txn,
  is_imbalanced b txn = true -> Transaction_GetSplitList b txn <> [].
Proof.
  intros b txn H Hs. unfold is_imbalanced in H. rewrite Hs in H.
  discriminate.
Qed.

Lemma imbalanced_filter_has_split : forall b txns txn,
  In txn (filter (is_imbalanced b) txns) ->
  Transaction_GetSplitList b txn <> [].
Proof.
  intros b txns txn H. apply filter_In in H.
  apply is_imbalanced_has_split. apply H.
Qed.

(** C5: a transaction passed to [set_dst_account] has passed
    [is_imbalanced] in [process], hence has a split
    ([imbalanced_filter_has_split]).  For every such transaction, if the
    split list does not have length exactly 2 then [set_dst_account] fails
    with the assertion before any edit: the book is unchanged and nothing
    but the printed line is added to the trace.  If it has exactly 2 splits
    the assertion passes and the reassignment proceeds: the edit is begun
    and one of the two splits is given the destination. *)
Theorem set_dst_account_two_splits_guard : forall w txn dst_account,
  let splits := Transaction_GetSplitList (book w) txn in
  let r := fst (set_dst_account txn dst_account w) in
  let w' := snd (set_dst_account txn dst_account w) in
  splits <> [] ->
  (List.length splits <> 2%nat ->
     r = Raise AssertionError
     /\ book w' = book w /\ PriceDb w' = PriceDb w
     /\ exists printed, trace w' = trace w ++ printed
                        /\ forall e, In e printed -> is_edit e = false)
  /\ (List.length splits = 2%nat ->
      r <> Raise AssertionError
      /\ exists dst more,
           In dst splits
           /\ trace w' = trace w
                ++ [printed_txn (book w) txn (hd dst splits);
                    BeginEdit txn; SetAccount dst dst_account] ++ more).
Proof.
  intros w txn dst_account splits r w' Hne.
  destruct (set_dst_account_by_split_count w txn dst_account) as (H1 & H2).
  split; [|exact H2].
  intros Hlen. destruct (H1 Hlen) as (Hb & Hp & Hprinted & Hassert & _).
  split; [exact (Hassert Hne)|]. split; [exact Hb|]. split; [exact Hp|].
  exact Hprinted.
Qed.

Lemma set_dst_account_two_splits_guard_witness :
  let w := Demo.running Demo.ledger3 in
  fst (set_dst_account 15%nat (Some 4%nat) w) = Raise AssertionError
  /\ book (snd (set_dst_account 15%nat (Some 4%nat) w)) = book w.
Proof.
  intros w.
  destruct (@set_dst_account_two_splits_guard w 15%nat (Some 4%nat))
    as (H & _).
  - discriminate.
  - destruct H as (Hr & Hb & _); [discriminate|].
    split; [exact Hr|exact Hb].
Defined.

Lemma update_same : forall V (f : nat -> V) k v, update f k v k = v.
Proof. intros; unfold update; rewrite Nat.eqb_refl; reflexivity. Qed.

Lemma update_other : forall V (f : nat -> V) k v k',
  k' <> k -> update f k v k' = f k'.
Proof.
  intros V f k v k' H; unfold update.
  apply Nat.eqb_neq in H; rewrite H; reflexivity.
Qed.

(** C2: when [set_dst_account] completes on a two-split transaction, it has
    set the amount of the destination split exactly if the mnemonic of the
    source account's commodity differs from that of the destination
    account's; and then the new amount is the old one times the value of
    the price that the price database's nearest-in-time lookup returns for
    (source commodity, destination commodity) at the date of the
    transaction, in thousandths. *)
Theorem set_dst_account_converts : forall w txn dst_account s0 s1 w',
  Transaction_GetSplitList (book w) txn = [s0; s1] ->
  set_dst_account txn dst_account w = (Ok tt, w') ->
  let b := book w in
  let dst := if is_split_imbalanced b s0 then s0 else s1 in
  let src := if is_split_imbalanced b s0 then s1 else s0 in
  let src_account := Split_GetAccount b src in
  exists d evs,
    dst_account = Some d /\ trace w' = trace w ++ evs
    /\ ((exists n, In (SetAmount dst n) evs) <->
        mnemonic_of b src_account <> mnemonic_of b d)
    /\ (forall s n, In (SetAmount s n) evs -> s = dst)
    /\ (mnemonic_of b src_account = mnemonic_of b d ->
        Split_GetAmount (book w') dst = Split_GetAmount b dst)
    /\ (mnemonic_of b src_account <> mnemonic_of b d ->
        exists lookup_nearest_in_time64 price n,
          PriceDb w = Some lookup_nearest_in_time64
          /\ lookup_nearest_in_time64
               (Account_GetCommodity b src_account)
               (Account_GetCommodity b d)
               (Transaction_GetDate b txn) = Some price
          /\ py_int (PrimFloat.mul
                       (PrimFloat.mul (to_double (Split_GetAmount b dst))
                                      (to_double (get_value price)))
                       (float_of_Z 1000)) = Ok n
          /\ In (SetAmount dst (mk_GncNumeric n 1000)) evs
          /\ Split_GetAmount (book w') dst = mk_GncNumeric n 1000).
Proof.
  intros w txn dst_account s0 s1 w' Hs H b dst src src_account.
  destruct dst_account as [d|];
    [|rewrite (set_dst_account_two_splits_None w txn Hs) in H; discriminate].
  rewrite (set_dst_account_two_splits w txn d Hs) in H.
  fold b dst src src_account in H.
  exists d. destruct (String.eqb _ _) eqn:Eq.
  - apply String.eqb_eq in Eq. inversion H; subst w'; clear H.
    eexists. split; [reflexivity|]. split; [reflexivity|]. simpl.
    split; [|split; [|split]].
    + split; [|congruence].
      intros (n & Hin). unfold printed_txn in Hin.
      repeat (destruct Hin as [Hin|Hin]; [discriminate Hin|]). destruct Hin.
    + intros s n Hin. unfold printed_txn in Hin.
      repeat (destruct Hin as [Hin|Hin]; [discriminate Hin|]). destruct Hin.
    + reflexivity.
    + congruence.
  - apply String.eqb_neq in Eq.
    destruct (converted _ _ _ _ _) as [n|e] eqn:Hc; [|discriminate].
    inversion H; subst w'; clear H.
    eexists. split; [reflexivity|]. split; [reflexivity|]. simpl.
    split; [|split; [|split]].
    + split; [intros _; exact Eq|]. intros _. exists (mk_GncNumeric n 1000).
      right; right; right; left; reflexivity.
    + intros s n' Hin. unfold printed_txn in Hin.
      destruct Hin as [Hin|[Hin|[Hin|[Hin|[Hin|[]]]]]];
        try discriminate Hin. inversion Hin; reflexivity.
    + congruence.
    + intros _. unfold converted, res_bind, deref in Hc.
      destruct (PriceDb w) as [db|]; [|discriminate].
      destruct (db _ _ _) as [price|] eqn:Hp; [|discriminate].
      exists db, price, n. split; [reflexivity|]. split; [exact Hp|].
      split; [exact Hc|]. split; [right; right; right; left; reflexivity|].
      apply update_same.
Qed.

Lemma set_dst_account_converts_witness :
  let w' := snd (set_dst_account 11%nat (Some 5%nat)
                   (Demo.running Demo.ledger)) in
  In (SetAmount 102%nat (mk_GncNumeric 100000 1000)) (trace w')
  /\ Split_GetAmount (book w') 102%nat = mk_GncNumeric 100000 1000.
Proof.
  intros w'.
  destruct (@set_dst_account_converts (Demo.running Demo.ledger) 11%nat
              (Some 5%nat) 102%nat 103%nat w' eq_refl eq_refl)
    as (d & evs & Hd & Htr & _ & _ & _ & Hconv).
  inversion Hd; subst d.
  destruct Hconv as (db & price & n & Hdb & Hp & Hn & Hin & Hamt);
    [discriminate|].
  inversion Hdb; subst db. inversion Hp; subst price.
  vm_compute in Hn. inversion Hn; subst n.
  split; [|exact Hamt].
  rewrite Htr. simpl. exact Hin.
Defined.

(** The run completes as soon as the destination exists and either no
    conversion is needed or the price is found and the product is finite. *)
Lemma set_dst_account_completes : forall w txn d s0 s1,
  Transaction_GetSplitList (book w) txn = [s0; s1] ->
  let b := book w in
  let dst := if is_split_imbalanced b s0 then s0 else s1 in
  let src := if is_split_imbalanced b s0 then s1 else s0 in
  mnemonic_of b (Split_GetAccount b src) = mnemonic_of b d
  \/ is_ok (converted w (Split_GetAccount b src) d txn dst) = true ->
  fst (set_dst_account txn (Some d) w) = Ok tt.
Proof.
  intros w txn d s0 s1 Hs b dst src Hcond.
  rewrite (set_dst_account_two_splits w txn d Hs).
  fold b dst src. destruct (String.eqb _ _) eqn:Eq; [reflexivity|].
  destruct Hcond as [E|Hok].
  - apply String.eqb_neq in Eq. contradiction.
  - destruct (converted _ _ _ _ _); [reflexivity|discriminate].
Qed.

(** C9: on a two-split transaction, whatever the outcome, the only split
    that [set_dst_account] touches is the first one if it lies in an
    imbalance account and the second one otherwise, which lies in an
    imbalance account whenever the transaction has one; every other split
    keeps its account and amount, the transaction keeps its date,
    description and splits, the touched split gets the destination
    account, and its amount stays as it was when the commodities have the
    same mnemonic. *)
Theorem set_dst_account_touches_one_split : forall w txn dst_account s0 s1,
  Transaction_GetSplitList (book w) txn = [s0; s1] ->
  let b := book w in
  let b' := book (snd (set_dst_account txn dst_account w)) in
  let target := if is_split_imbalanced b s0 then s0 else s1 in
  let other := if is_split_imbalanced b s0 then s1 else s0 in
  (is_imbalanced b txn = true -> is_split_imbalanced b target = true)
  /\ (forall s, s <> target ->
        Split_GetAccount b' s = Split_GetAccount b s
        /\ Split_GetAmount b' s = Split_GetAmount b s)
  /\ Transaction_GetDate b' txn = Transaction_GetDate b txn
  /\ Transaction_GetDescription b' txn = Transaction_GetDescription b txn
  /\ Transaction_GetSplitList b' txn = [s0; s1]
  /\ (forall d, dst_account = Some d -> Split_GetAccount b' target = d)
  /\ (forall d, dst_account = Some d ->
        mnemonic_of b (Split_GetAccount b other) = mnemonic_of b d ->
        Split_GetAmount b' target = Split_GetAmount b target)
  /\ (dst_account = None -> b' = b).
Proof.
  intros w txn dst_account s0 s1 Hs b b' target other.
  split.
  { unfold is_imbalanced. subst target b. rewrite Hs. simpl.
    destruct (is_split_imbalanced (book w) s0) eqn:E0; [intros _; exact E0|].
    destruct (is_split_imbalanced (book w) s1); [reflexivity|discriminate]. }
  subst b'. destruct dst_account as [d|].
  - rewrite (set_dst_account_two_splits w txn d Hs).
    fold b target other.
    destruct (String.eqb _ _) eqn:Eq;
      [|destruct (converted _ _ _ _ _) as [n|e]]; simpl;
      (split; [intros s Hne; rewrite ?update_other by assumption;
               split; reflexivity|]);
      (split; [reflexivity|]); (split; [reflexivity|]);
      (split; [exact Hs|]);
      (split; [intros d' Hd; inversion Hd; subst d'; apply update_same|]);
      (split; [|discriminate]);
      intros d' Hd; inversion Hd; subst d'; intros Hm;
      try reflexivity;
      apply String.eqb_neq in Eq; contradiction.
  - rewrite (set_dst_account_two_splits_None w txn Hs). simpl.
    split; [intros s Hne; split; reflexivity|].
    repeat split; try reflexivity; try exact Hs; discriminate.
Qed.

Lemma set_dst_account_touches_one_split_witness :
  let b' := book (snd (set_dst_account 10%nat (Some 4%nat)
                         (Demo.running Demo.ledger))) in
  Split_GetAccount b' 101%nat = 4%nat
  /\ Split_GetAccount b' 100%nat = 2%nat
  /\ Split_GetAmount b' 101%nat = mk_GncNumeric 5000 100.
Proof.
  intros b'.
  destruct (@set_dst_account_touches_one_split (Demo.running Demo.ledger)
              10%nat (Some 4%nat) 100%nat 101%nat eq_refl)
    as (_ & Hother & _ & _ & _ & Hacc & Hamt & _).
  split; [exact (Hacc 4%nat eq_refl)|].
  split; [apply (Hother 100%nat); discriminate|].
  exact (Hamt 4%nat eq_refl eq_refl).
Defined.

(* ================================================================== *)
(** * Applying the rules to one account *)
(* ================================================================== *)

Lemma extends_frame : forall w w' evs,
  extends w w' evs -> same_frame (book w) (book w').
Proof. intros w w' evs (F & _); exact F. Qed.

Lemma same_frame_splits : forall b b',
  same_frame b b' ->
  Transaction_GetSplitList b' = Transaction_GetSplitList b.
Proof. intros b b' H; apply H. Qed.

Lemma same_frame_description : forall b b',
  same_frame b b' ->
  Transaction_GetDescription b' = Transaction_GetDescription b.
Proof. intros b b' H; apply H. Qed.

(** Path lookup reads the chart of accounts only. *)
Lemma account_lookup_by_path_frame : forall b b' start path_str,
  same_frame b b' ->
  account_lookup_by_path b' start path_str
  = account_lookup_by_path b start path_str.
Proof.
  intros b b' start path_str F. unfold account_lookup_by_path.
  assert (L : Account_lookup_by_name b' = Account_lookup_by_name b)
    by apply F.
  generalize (split ":" path_str) as path. intros path; revert start.
  induction path as [|n path IH]; intros start; simpl; [reflexivity|].
  destruct start as [a|]; simpl; [|reflexivity].
  rewrite L. destruct (Nat.eqb (List.length path) 0); [reflexivity|apply IH].
Qed.

Lemma for_each_app : forall A (l1 l2 : list A) body w,
  for_each (l1 ++ l2) body w =
  match for_each l1 body w with
  | (Ok _, w1) => for_each l2 body w1
  | (Raise e, w1) => (Raise e, w1)
  end.
Proof.
  induction l1 as [|x l1 IH]; intros l2 body w; simpl.
  - reflexivity.
  - unfold M_bind. destruct (body x w) as [[[]|e] w1]; [apply IH|reflexivity].
Qed.

(** The loop of [apply_rule]. *)
Lemma for_each_set_dst_account : forall dst_account txns w r w',
  for_each txns (fun txn => set_dst_account txn dst_account) w = (r, w') ->
  exists evs,
    extends w w' evs
    /\ (forall s a, In (SetAccount s a) evs ->
          a = dst_account
          /\ exists t, In t txns
                       /\ In s (Transaction_GetSplitList (book w) t))
    /\ (r = Ok tt ->
        forall t, In t txns ->
          exists s d, dst_account = Some d
                      /\ In s (Transaction_GetSplitList (book w) t)
                      /\ In (SetAccount s (Some d)) evs).
Proof.
  intros dst_account txns; induction txns as [|t txns IH];
    intros w r w' H; simpl in H.
  - inversion H; subst. exists []. split; [apply extends_refl|].
    split; [intros s a []|intros _ t []].
  - unfold M_bind in H.
    destruct (set_dst_account t dst_account w) as [r1 w1] eqn:E1.
    destruct (set_dst_account_extends _ _ _ E1) as (evs1 & X1 & S1 & C1).
    pose proof (same_frame_splits (extends_frame X1)) as Hspl.
    destruct r1 as [[]|e].
    + destruct (IH _ _ _ H) as (evs2 & X2 & S2 & C2).
      exists (evs1 ++ evs2). split; [eapply extends_trans; eassumption|].
      split.
      * intros s a Hin. apply in_app_or in Hin. destruct Hin as [Hin|Hin].
        -- destruct (S1 _ _ Hin) as (-> & Hs). split; [reflexivity|].
           exists t. split; [left; reflexivity|assumption].
        -- destruct (S2 _ _ Hin) as (-> & t' & Ht' & Hs).
           split; [reflexivity|]. exists t'. split; [right; assumption|].
           rewrite Hspl in Hs. assumption.
      * intros -> t' [<-|Ht'].
        -- destruct (C1 eq_refl) as (s & d & Hd & Hs & Hin).
           exists s, d. repeat split; try assumption.
           apply in_or_app; left; assumption.
        -- destruct (C2 eq_refl t' Ht') as (s & d & Hd & Hs & Hin).
           exists s, d. repeat split; try assumption.
           ++ rewrite Hspl in Hs; assumption.
           ++ apply in_or_app; right; assumption.
    + inversion H; subst. exists evs1. split; [assumption|].
      split; [|discriminate].
      intros s a Hin. destruct (S1 _ _ Hin) as (-> & Hs).
      split; [reflexivity|]. exists t. split; [left; reflexivity|assumption].
Qed.

Lemma apply_rule_extends : forall txns description dst_account w r w',
  apply_rule txns description dst_account w = (r, w') ->
  exists evs,
    extends w w' evs
    /\ (forall s a, In (SetAccount s a) evs ->
          a = dst_account
          /\ exists t, In t txns
                       /\ Transaction_GetDescription (book w) t = description
                       /\ In s (Transaction_GetSplitList (book w) t))
    /\ (r = Ok tt ->
        forall t, In t txns ->
          Transaction_GetDescription (book w) t = description ->
          exists s d, dst_account = Some d
                      /\ In s (Transaction_GetSplitList (book w) t)
                      /\ In (SetAccount s (Some d)) evs).
Proof.
  intros txns description dst_account w r w' H.
  unfold apply_rule, M_bind, reading in H.
  destruct (for_each_set_dst_account _ _ _ H) as (evs & X & S & C).
  exists evs. split; [assumption|]. split.
  - intros s a Hin. destruct (S _ _ Hin) as (-> & t & Ht & Hs).
    apply filter_In in Ht. destruct Ht as (Ht & Hd).
    apply String.eqb_eq in Hd.
    split; [reflexivity|]. exists t. repeat split; assumption.
  - intros -> t Ht Hd. apply (C eq_refl).
    apply filter_In. split; [assumption|].
    apply String.eqb_eq; assumption.
Qed.

(** The loop over the rules, for a fixed list of transactions. *)
Lemma for_each_rule : forall root txns da_rules w r w',
  for_each da_rules
    (fun item : string * string =>
       let (desc, dst_account_path) := item in
       (dst_account <- reading (fun b =>
                         account_lookup_by_path b (Some root)
                                                dst_account_path) ;;
        apply_rule txns desc dst_account)%M) w = (r, w') ->
  exists evs,
    extends w w' evs
    /\ (forall s a, In (SetAccount s a) evs ->
          exists t path,
            In t txns
            /\ In s (Transaction_GetSplitList (book w) t)
            /\ In (Transaction_GetDescription (book w) t, path) da_rules
            /\ account_lookup_by_path (book w) (Some root) path = Ok a)
    /\ (r = Ok tt ->
        forall t path,
          In t txns ->
          In (Transaction_GetDescription (book w) t, path) da_rules ->
          exists s d,
            account_lookup_by_path (book w) (Some root) path = Ok (Some d)
            /\ In s (Transaction_GetSplitList (book w) t)
            /\ In (SetAccount s (Some d)) evs)
    /\ (r = Ok tt ->
        forall desc path, In (desc, path) da_rules ->
          is_ok (account_lookup_by_path (book w) (Some root) path) = true).
Proof.
  intros root txns da_rules; induction da_rules as [|[desc path] rules IH];
    intros w r w' H; simpl in H.
  - inversion H; subst. exists []. split; [apply extends_refl|].
    split; [intros s a []|]. split; intros _ ? ? ; try intros ? []; intros [].
  - unfold M_bind at 1 in H. unfold M_bind at 1, reading at 1 in H.
    destruct (account_lookup_by_path (book w) (Some root) path)
      as [dst|e] eqn:El.
    + destruct (apply_rule txns desc dst w) as [r1 w1] eqn:E1.
      destruct (apply_rule_extends _ _ _ _ E1) as (evs1 & X1 & S1 & C1).
      pose proof (extends_frame X1) as F1.
      pose proof (same_frame_splits F1) as Hspl.
      pose proof (same_frame_description F1) as Hdesc.
      destruct r1 as [[]|e].
      * destruct (IH _ _ _ H) as (evs2 & X2 & S2 & C2 & L2).
        exists (evs1 ++ evs2). split; [eapply extends_trans; eassumption|].
        split; [|split].
        -- intros s a Hin. apply in_app_or in Hin. destruct Hin as [Hin|Hin].
           ++ destruct (S1 _ _ Hin) as (-> & t & Ht & Hd & Hs).
              exists t, path. repeat split; try assumption.
              rewrite Hd. left; reflexivity.
           ++ destruct (S2 _ _ Hin) as (t & p & Ht & Hs & Hr & Hl).
              rewrite Hspl in Hs. rewrite Hdesc in Hr.
              rewrite (account_lookup_by_path_frame _ _ F1) in Hl.
              exists t, p. repeat split; try assumption. right; assumption.
        -- intros -> t p Ht [E|Hr].
           ++ inversion E; subst desc p.
              destruct (C1 eq_refl t Ht eq_refl) as (s & d & -> & Hs & Hin).
              exists s, d. repeat split; try assumption.
              apply in_or_app; left; assumption.
           ++ rewrite <- Hdesc in Hr.
              destruct (C2 eq_refl t p Ht Hr) as (s & d & Hl & Hs & Hin).
              rewrite Hspl in Hs.
              rewrite (account_lookup_by_path_frame _ _ F1) in Hl.
              exists s, d. repeat split; try assumption.
              apply in_or_app; right; assumption.
        -- intros -> desc' p [E|Hr].
           ++ inversion E; subst. rewrite El; reflexivity.
           ++ rewrite <- (account_lookup_by_path_frame _ _ F1).
              apply (L2 eq_refl desc'); assumption.
      * inversion H; subst. exists evs1. split; [assumption|].
        split; [|split; discriminate].
        intros s a Hin. destruct (S1 _ _ Hin) as (-> & t & Ht & Hd & Hs).
        exists t, path. repeat split; try assumption.
        rewrite Hd. left; reflexivity.
    + inversion H; subst. exists []. split; [apply extends_refl|].
      split; [intros s a []|split; discriminate].
Qed.

Lemma datetime_new_Ok : forall year month day d,
  datetime_new year month day = Ok d ->
  d = mk_datetime year month day 0 0 0 0.
Proof.
  intros year month day d; unfold datetime_new.
  destruct (negb _); [discriminate|].
  destruct (_ && _); congruence.
Qed.

(** For a given year and month, [filter_out] either decides every datetime
    or raises on every datetime. *)
Lemma filter_out_cases : forall year month,
  (forall dt, filter_out dt year month
              = Ok (negb (within_month dt year month)))
  \/ (forall dt, exists e, filter_out dt year month = Raise e).
Proof.
  intros year month. unfold filter_out, within_month, next_month_start.
  destruct (datetime_new year month 1) as [d1|e1] eqn:E1; simpl;
    [|right; intros; eexists; reflexivity].
  apply datetime_new_Ok in E1; subst d1.
  destruct (month =? 12).
  - destruct (datetime_new (year + 1) 1 1) as [d2|e2] eqn:E2; simpl;
      [|right; intros; eexists; reflexivity].
    apply datetime_new_Ok in E2; subst d2. left; intros dt.
    unfold datetime_ge, month_start.
    rewrite negb_andb, negb_involutive. reflexivity.
  - destruct (datetime_new year (month + 1) 1) as [d2|e2] eqn:E2; simpl;
      [|right; intros; eexists; reflexivity].
    apply datetime_new_Ok in E2; subst d2. left; intros dt.
    unfold datetime_ge, month_start.
    rewrite negb_andb, negb_involutive. reflexivity.
Qed.

Lemma filter_res_In : forall A (keep : A -> res bool) l l',
  filter_res keep l = Ok l' ->
  (forall x, In x l -> exists k, keep x = Ok k)
  /\ (forall x, In x l' <-> In x l /\ keep x = Ok true).
Proof.
  intros A keep; induction l as [|y l IH]; intros l' H; simpl in H.
  - inversion H; subst. split; [intros x []|]. intros x; simpl; tauto.
  - unfold res_bind in H. destruct (keep y) as [k|e] eqn:Ek; [|discriminate].
    destruct (filter_res keep l) as [rest|e] eqn:Er; [|discriminate].
    destruct (IH _ eq_refl) as (Hall & Hin). inversion H; subst l'; clear H.
    split.
    + intros x [<-|Hx]; [exists k; assumption|apply Hall; assumption].
    + intros x. destruct k; simpl; rewrite Hin; split.
      * intros [<-|(Hx & Hk)]; [split; [left; reflexivity|assumption]|].
        split; [right; assumption|assumption].
      * intros ([<-|Hx] & Hk); [left; reflexivity|right; split; assumption].
      * intros (Hx & Hk). split; [right; assumption|assumption].
      * intros ([<-|Hx] & Hk); [congruence|split; assumption].
Qed.

(** What [get_transactions] returns when it returns. *)
Lemma get_transactions_In : forall b a year month txns,
  get_transactions b (Some a) year month = Ok txns ->
  forall t,
    In t txns <->
    (exists s, In s (Account_GetSplitList b a) /\ Split_parent b s = t)
    /\ within_month (Transaction_GetDate b t) year month = true.
Proof.
  intros b a year month txns H t.
  unfold get_transactions in H; simpl in H. unfold res_bind at 1 in H.
  destruct (filter_res _ _) as [kept|e] eqn:Ek; [|discriminate].
  inversion H; subst txns; clear H.
  destruct (filter_res_In _ _ Ek) as (Hall & Hin).
  rewrite in_map_iff.
  destruct (filter_out_cases year month) as [Hdec|Hraise].
  - split.
    + intros (s & <- & Hs). apply Hin in Hs. destruct Hs as (Hs & Hk).
      rewrite Hdec in Hk; simpl in Hk. rewrite negb_involutive in Hk.
      split; [exists s; split; [assumption|reflexivity]|congruence].
    + intros ((s & Hs & <-) & Hw). exists s. split; [reflexivity|].
      apply Hin. split; [assumption|].
      rewrite Hdec; simpl. rewrite negb_involutive, Hw. reflexivity.
  - split.
    + intros (s & <- & Hs). apply Hin in Hs. destruct Hs as (Hs & Hk).
      destruct (Hraise (Transaction_GetDate b (Split_parent b s))) as (e & He).
      rewrite He in Hk; discriminate.
    + intros ((s & Hs & <-) & Hw). exfalso.
      destruct (Hall _ Hs) as (k & Hk).
      destruct (Hraise (Transaction_GetDate b (Split_parent b s))) as (e & He).
      rewrite He in Hk; discriminate.
Qed.

(** One scan: which splits are given which account. *)
Lemma process_account_extends :
  forall root da_rules year month account_path w r w',
  process_account root da_rules year month account_path w = (r, w') ->
  exists evs,
    extends w w' evs
    /\ (forall s a, In (SetAccount s a) evs ->
          exists account t path,
            account_lookup_by_path (book w) (Some root) account_path
            = Ok (Some account)
            /\ In s (Transaction_GetSplitList (book w) t)
            /\ selected (book w) account year month t
            /\ In (Transaction_GetDescription (book w) t, path) da_rules
            /\ account_lookup_by_path (book w) (Some root) path = Ok a)
    /\ (r = Ok tt ->
        exists account,
          account_lookup_by_path (book w) (Some root) account_path
          = Ok (Some account)
          /\ (forall t path,
                selected (book w) account year month t ->
                In (Transaction_GetDescription (book w) t, path) da_rules ->
                exists s d,
                  account_lookup_by_path (book w) (Some root) path
                  = Ok (Some d)
                  /\ In s (Transaction_GetSplitList (book w) t)
                  /\ In (SetAccount s (Some d)) evs)
          /\ (forall desc path, In (desc, path) da_rules ->
                is_ok (account_lookup_by_path (book w) (Some root) path)
                = true)).
Proof.
  intros root da_rules year month account_path w r w' H.
  unfold process_account in H.
  unfold M_bind at 1, emit at 1 in H.
  set (w0 := mk_World (book w) (PriceDb w) (trace w ++ [Printed account_path]))
    in H.
  assert (X0 : extends w w0 [Printed account_path])
    by (unfold extends; simpl; repeat split; try reflexivity;
        apply same_frame_refl).
  unfold M_bind at 1, reading at 1 in H.
  change (book w0) with (book w) in H.
  destruct (account_lookup_by_path (book w) (Some root) account_path)
    as [account|e] eqn:El.
  2:{ inversion H; subst. exists [Printed account_path].
      split; [assumption|]. split; [|discriminate].
      intros s a [Hin|[]]; discriminate. }
  unfold M_bind at 1, reading at 1 in H.
  change (book w0) with (book w) in H.
  destruct account as [account|].
  2:{ simpl in H. inversion H; subst. exists [Printed account_path].
      split; [assumption|]. split; [|discriminate].
      intros s a [Hin|[]]; discriminate. }
  destruct (get_transactions (book w) (Some account) year month)
    as [txns|e] eqn:Et.
  2:{ inversion H; subst. exists [Printed account_path].
      split; [assumption|]. split; [|discriminate].
      intros s a [Hin|[]]; discriminate. }
  unfold M_bind at 1, reading at 1 in H.
  change (book w0) with (book w) in H.
  destruct (for_each_rule _ _ _ _ H) as (evs & X & S & C & L).
  change (book w0) with (book w) in S, C, L.
  assert (Hsel : forall t,
             In t (filter (is_imbalanced (book w)) txns) <->
             selected (book w) account year month t).
  { intros t. rewrite filter_In, (get_transactions_In _ _ _ _ Et).
    unfold selected. tauto. }
  exists ([Printed account_path] ++ evs).
  split; [eapply extends_trans; eassumption|]. split.
  - intros s a [Hin|Hin]; [discriminate|].
    destruct (S _ _ Hin) as (t & p & Ht & Hs & Hr & Hl).
    exists account, t, p. repeat split; try assumption; apply Hsel; assumption.
  - intros ->. exists account. split; [reflexivity|]. split.
    + intros t p Ht Hr. apply Hsel in Ht.
      destruct (C eq_refl t p Ht Hr) as (s & d & Hl & Hs & Hin).
      exists s, d. repeat split; try assumption. right; assumption.
    + apply (L eq_refl).
Qed.

(* ================================================================== *)
(** * The whole run *)
(* ================================================================== *)

Lemma process_unfold : forall root rules year month config accounts w,
  doc_rules rules = Some config ->
  doc_accounts_to_scan rules = Some accounts ->
  process root rules year month w
  = for_each accounts
      (process_account root (rules2darules config) year month) w.
Proof.
  intros root rules year month config accounts w Hr Ha.
  unfold process, M_bind, lift, RulesDoc_rules, RulesDoc_accounts.
  rewrite Hr, Ha. reflexivity.
Qed.

Lemma for_each_process_account_extends :
  forall root da_rules year month accounts w r w',
  for_each accounts (process_account root da_rules year month) w = (r, w') ->
  exists evs, extends w w' evs.
Proof.
  intros root da_rules year month accounts;
    induction accounts as [|p accounts IH]; intros w r w' H; simpl in H.
  - inversion H; subst. exists []. apply extends_refl.
  - unfold M_bind in H.
    destruct (process_account root da_rules year month p w) as [r1 w1] eqn:E1.
    destruct (process_account_extends _ _ _ _ _ _ E1) as (evs1 & X1 & _).
    destruct r1 as [[]|e].
    + destruct (IH _ _ _ H) as (evs2 & X2).
      exists (evs1 ++ evs2). eapply extends_trans; eassumption.
    + inversion H; subst. exists evs1. assumption.
Qed.

Lemma parents_consistent_frame : forall b b',
  same_frame b b' -> parents_consistent b -> parents_consistent b'.
Proof.
  intros b b' F H t s Hin.
  destruct F as (_ & _ & _ & _ & _ & Hpar & Hspl & _).
  rewrite Hpar. apply H. rewrite <- Hspl. assumption.
Qed.

(** A split that the events only ever give the account [d], and give it at
    least once, lies in [d] afterwards. *)
Lemma replay_SetAccount : forall s d evs b,
  (forall a, In (SetAccount s a) evs -> a = Some d) ->
  Split_GetAccount (replay evs b) s = d
  \/ ((forall a, ~ In (SetAccount s a) evs)
      /\ Split_GetAccount (replay evs b) s = Split_GetAccount b s).
Proof.
  intros s d; induction evs as [|e evs IH]; intros b Hall.
  - right. split; [intros a []|reflexivity].
  - assert (Hall' : forall a, In (SetAccount s a) evs -> a = Some d)
      by (intros a Hin; apply Hall; right; assumption).
    change (replay (e :: evs) b) with (replay evs (apply_event b e)).
    destruct (IH (apply_event b e) Hall') as [Hd|(Hno & Hsame)];
      [left; assumption|].
    rewrite Hsame.
    destruct e as [line|dt desc amt|t|s' a|s' n|t| |]; simpl;
      try (right; split; [intros a [E|Hin]; [discriminate E|exact (Hno a Hin)]
                         |reflexivity]).
    destruct (Nat.eq_dec s' s) as [->|Hne].
    + left. rewrite (Hall a (or_introl eq_refl)). simpl. apply update_same.
    + right. split.
      * intros a' [E|Hin]; [inversion E; contradiction|exact (Hno a' Hin)].
      * destruct a as [a|]; simpl; [|reflexivity].
        apply update_other. congruence.
Qed.

(** One scan within a run that completes: what it reassigns. *)
Lemma process_scan_reassigns :
  forall root rules year month w w' config before account_path after,
  doc_rules rules = Some config ->
  doc_accounts_to_scan rules = Some (before ++ account_path :: after) ->
  parents_consistent (book w) ->
  process root rules year month w = (Ok tt, w') ->
  let da_rules := rules2darules config in
  exists w1 w2 evs account,
    for_each before (process_account root da_rules year month) w = (Ok tt, w1)
    /\ process_account root da_rules year month account_path w1 = (Ok tt, w2)
    /\ trace w2 = trace w1 ++ evs
    /\ account_lookup_by_path (book w1) (Some root) account_path
       = Ok (Some account)
    /\ (forall t,
          (exists s a, In (SetAccount s a) evs /\ Split_parent (book w1) s = t)
          <->
          (selected (book w1) account year month t
           /\ exists path,
                dict_get da_rules (Transaction_GetDescription (book w1) t)
                = Some path))
    /\ (forall s a, In (SetAccount s a) evs ->
          exists path d,
            dict_get da_rules
              (Transaction_GetDescription (book w1) (Split_parent (book w1) s))
            = Some path
            /\ account_lookup_by_path (book w1) (Some root) path = Ok (Some d)
            /\ a = Some d
            /\ In s (Transaction_GetSplitList (book w1)
                       (Split_parent (book w1) s))
            /\ Split_GetAccount (book w2) s = d).
Proof.
  intros root rules year month w w' config before account_path after
         Hr Ha Hcons H da_rules.
  rewrite (process_unfold root rules year month w Hr Ha), for_each_app in H.
  fold da_rules in H.
  destruct (for_each before (process_account root da_rules year month) w)
    as [[[]|e] w1] eqn:E1; [|discriminate].
  simpl in H. unfold M_bind in H.
  destruct (process_account root da_rules year month account_path w1)
    as [[[]|e] w2] eqn:E2; [|inversion H].
  destruct (for_each_process_account_extends _ _ _ _ _ _ E1) as (evs0 & X0).
  pose proof (parents_consistent_frame (extends_frame X0) Hcons) as Hcons1.
  destruct (process_account_extends _ _ _ _ _ _ E2)
    as (evs & X & S & C).
  destruct (C eq_refl) as (account & Hacc & Hcomplete & _).
  assert (Hnd : NoDup (dict_keys da_rules)) by apply rules2darules_NoDup.
  exists w1, w2, evs, account.
  split; [first [assumption|reflexivity]|].
  split; [first [assumption|reflexivity]|].
  split; [apply X|]. split; [assumption|].
  assert (Hsound : forall s a, In (SetAccount s a) evs ->
            selected (book w1) account year month (Split_parent (book w1) s)
            /\ exists path d,
                 dict_get da_rules
                   (Transaction_GetDescription (book w1)
                      (Split_parent (book w1) s)) = Some path
                 /\ account_lookup_by_path (book w1) (Some root) path
                    = Ok (Some d)
                 /\ a = Some d
                 /\ In s (Transaction_GetSplitList (book w1)
                            (Split_parent (book w1) s))).
  { intros s a Hin.
    destruct (S _ _ Hin) as (account' & t & p & Hacc' & Hs & Hsel & Hrule & Hl).
    rewrite Hacc in Hacc'. inversion Hacc'; subst account'.
    rewrite (Hcons1 _ _ Hs).
    split; [assumption|].
    destruct (Hcomplete _ _ Hsel Hrule) as (s' & d & Hl' & _ & _).
    exists p, d. split; [apply dict_get_In; assumption|].
    split; [assumption|]. split; [congruence|assumption]. }
  split.
  - intros t. split.
    + intros (s & a & Hin & <-).
      destruct (Hsound _ _ Hin) as (Hsel & p & d & Hg & _).
      split; [assumption|]. exists p; assumption.
    + intros (Hsel & p & Hg).
      apply dict_get_In in Hg; [|assumption].
      destruct (Hcomplete _ _ Hsel Hg) as (s & d & _ & Hs & Hin).
      exists s, (Some d). split; [assumption|]. apply Hcons1; assumption.
  - intros s a Hin.
    destruct (Hsound _ _ Hin) as (_ & p & d & Hg & Hl & Ha' & Hs).
    exists p, d. repeat split; try assumption.
    destruct X as (_ & _ & _ & Hbook). rewrite Hbook.
    destruct (@replay_SetAccount s d evs (book w1)) as [Hd|(Hno & _)];
      [|exact Hd|exfalso; exact (Hno a Hin)].
    intros a' Hin'.
    destruct (Hsound _ _ Hin') as (_ & p' & d' & Hg' & Hl' & Ha'' & _).
    congruence.
Qed.

(** X1: on a run of [process] that completes, for every scanned
    account path, taken in the state [w1] in which its scan starts, the
    transactions given a new account during the scan are exactly those
    reached from a split of the scanned account, dated within the requested
    month, with a split in an account whose name starts with "Imbalance-",
    and whose description is a trigger of the rules; each is given the
    account that the path of its rule resolves to, and the split that was
    given it lies there when the scan ends. *)
Theorem process_reassigns_selected :
  forall root rules year month w w' config before account_path after,
  doc_rules rules = Some config ->
  doc_accounts_to_scan rules = Some (before ++ account_path :: after) ->
  parents_consistent (book w) ->
  process root rules year month w = (Ok tt, w') ->
  let da_rules := rules2darules config in
  exists w1 w2 evs account,
    for_each before (process_account root da_rules year month) w = (Ok tt, w1)
    /\ process_account root da_rules year month account_path w1 = (Ok tt, w2)
    /\ trace w2 = trace w1 ++ evs
    /\ account_lookup_by_path (book w1) (Some root) account_path
       = Ok (Some account)
    /\ (forall t,
          (exists s a, In (SetAccount s a) evs /\ Split_parent (book w1) s = t)
          <->
          (selected (book w1) account year month t
           /\ exists path,
                dict_get da_rules (Transaction_GetDescription (book w1) t)
                = Some path))
    /\ (forall s a, In (SetAccount s a) evs ->
          exists path d,
            dict_get da_rules
              (Transaction_GetDescription (book w1) (Split_parent (book w1) s))
            = Some path
            /\ account_lookup_by_path (book w1) (Some root) path = Ok (Some d)
            /\ a = Some d
            /\ In s (Transaction_GetSplitList (book w1)
                       (Split_parent (book w1) s))
            /\ Split_GetAccount (book w2) s = d).
Proof.
  intros root rules year month w w' config before account_path after
         Hr Ha Hcons H.
  exact (@process_scan_reassigns root rules year month w w' config before
           account_path after Hr Ha Hcons H).
Qed.

(* ================================================================== *)
(** * Further properties of the script *)
(* ================================================================== *)

Lemma Demo_ledger_consistent : parents_consistent Demo.ledger.
Proof.
  intros t s Hin. simpl in Hin.
  do 15 (destruct t as [|t];
         [simpl in Hin; intuition (subst; reflexivity)|]).
  destruct Hin.
Qed.

Lemma process_reassigns_selected_witness :
  let w' := snd (process 0%nat Demo.rules 2026 3 (Demo.running Demo.ledger)) in
  (exists s a, In (SetAccount s a) (trace w') /\ Demo.parent s = 11%nat)
  /\ (forall s a, In (SetAccount s a) (trace w') -> Demo.parent s <> 13%nat).
Proof.
  intros w'.
  assert (Hrun : process 0%nat Demo.rules 2026 3 (Demo.running Demo.ledger)
                 = (Ok tt, w')) by (vm_compute; reflexivity).
  destruct (@process_reassigns_selected 0%nat Demo.rules 2026 3
              (Demo.running Demo.ledger) w' _ [] "Assets:Bank" []
              eq_refl eq_refl Demo_ledger_consistent Hrun)
    as (w1 & w2 & evs & account & E1 & E2 & Htr & Hacc & Hiff & Hdst).
  cbn [for_each] in E1. unfold M_ret in E1.
  apply (f_equal snd) in E1. cbn [snd] in E1. subst w1.
  apply (f_equal snd) in E2. cbn [snd] in E2. subst w2.
  assert (Hsame : trace w' = evs).
  { rewrite <- (app_nil_l evs).
    change (@nil Event) with (trace (Demo.running Demo.ledger)).
    rewrite <- Htr. vm_compute. reflexivity. }
  vm_compute in Hacc. injection Hacc as Hacc. subst account.
  rewrite Hsame. split.
  - apply (proj2 (Hiff 11%nat)). split.
    + split; [exists 103%nat; split|split].
      * vm_compute; tauto.
      * vm_compute; reflexivity.
      * vm_compute; reflexivity.
      * vm_compute; reflexivity.
    + exists "Expenses:Travel". vm_compute; reflexivity.
  - intros s a Hin Hp.
    assert (Hex : exists s a, In (SetAccount s a) evs
                              /\ Split_parent (book (Demo.running Demo.ledger)) s
                                 = 13%nat)
      by (exists s, a; split; [assumption|exact Hp]).
    apply (proj1 (Hiff 13%nat)) in Hex.
    destruct Hex as ((_ & _ & Himb) & _). vm_compute in Himb. discriminate.
Defined.

(** A loop that completes has run its body to completion on every element,
    each time from a world that extends the first one. *)
Lemma for_each_Ok_inv : forall A (body : A -> M unit),
  (forall x w r w', body x w = (r, w') -> exists evs, extends w w' evs) ->
  forall l w w',
    for_each l body w = (Ok tt, w') ->
    forall x, In x l ->
      exists wa wb evs, extends w wa evs /\ body x wa = (Ok tt, wb).
Proof.
  intros A body Hext; induction l as [|y l IH]; intros w w' H x Hin.
  - destruct Hin.
  - simpl in H. unfold M_bind in H.
    destruct (body y w) as [[[]|e] w1] eqn:E1; [|discriminate].
    destruct Hin as [<-|Hin].
    + exists w, w1, []. split; [apply extends_refl|assumption].
    + destruct (Hext _ _ _ _ E1) as (evs1 & X1).
      destruct (IH _ _ H x Hin) as (wa & wb & evs & X & E).
      exists wa, wb, (evs1 ++ evs).
      split; [eapply extends_trans; eassumption|assumption].
Qed.

Lemma set_dst_account_Ok_two_splits : forall txn dst_account w w',
  set_dst_account txn dst_account w = (Ok tt, w') ->
  List.length (Transaction_GetSplitList (book w) txn) = 2%nat.
Proof.
  intros txn dst_account w w' H.
  destruct (Transaction_GetSplitList (book w) txn)
    as [|s0 [|s1 [|s2 rest]]] eqn:Hs.
  - rewrite set_dst_account_no_split in H by assumption. discriminate.
  - rewrite (@set_dst_account_not_two w txn dst_account s0 []) in H
      by (assumption || (simpl; congruence)).
    discriminate.
  - reflexivity.
  - rewrite (@set_dst_account_not_two w txn dst_account s0 (s1 :: s2 :: rest))
      in H by (assumption || (simpl; congruence)).
    discriminate.
Qed.

Lemma apply_rule_Ok_two_splits : forall txns description dst_account w w',
  apply_rule txns description dst_account w = (Ok tt, w') ->
  forall t, In t txns ->
    Transaction_GetDescription (book w) t = description ->
    List.length (Transaction_GetSplitList (book w) t) = 2%nat.
Proof.
  intros txns description dst_account w w' H t Ht Hd.
  unfold apply_rule, M_bind, reading in H.
  assert (Hin : In t (filter (fun txn =>
                    String.eqb (Transaction_GetDescription (book w) txn)
                               description) txns))
    by (apply filter_In; split; [assumption|apply String.eqb_eq; assumption]).
  destruct (@for_each_Ok_inv _
              (fun txn => set_dst_account txn dst_account)
              (fun x w r w' E =>
                 let (evs, P) := set_dst_account_extends _ _ _ E in
                 ex_intro _ evs (proj1 P))
              _ _ _ H t Hin) as (wa & wb & evs & X & E).
  apply set_dst_account_Ok_two_splits in E.
  rewrite (same_frame_splits (extends_frame X)) in E. exact E.
Qed.

Lemma rule_body_extends : forall root txns (item : string * string) w r w',
  (let (desc, dst_account_path) := item in
   (dst_account <- reading (fun b =>
                     account_lookup_by_path b (Some root) dst_account_path) ;;
    apply_rule txns desc dst_account)%M) w = (r, w') ->
  exists evs, extends w w' evs.
Proof.
  intros root txns [desc path] w r w' H.
  unfold M_bind at 1, reading at 1 in H.
  destruct (account_lookup_by_path (book w) (Some root) path) as [dst|e].
  - destruct (apply_rule_extends _ _ _ _ H) as (evs & X & _).
    exists evs; assumption.
  - inversion H; subst. exists []. apply extends_refl.
Qed.

Lemma for_each_rule_Ok_two_splits : forall root txns da_rules w w',
  for_each da_rules
    (fun item : string * string =>
       let (desc, dst_account_path) := item in
       (dst_account <- reading (fun b =>
                         account_lookup_by_path b (Some root)
                                                dst_account_path) ;;
        apply_rule txns desc dst_account)%M) w = (Ok tt, w') ->
  forall t path,
    In t txns ->
    In (Transaction_GetDescription (book w) t, path) da_rules ->
    List.length (Transaction_GetSplitList (book w) t) = 2%nat.
Proof.
  intros root txns da_rules w w' H t path Ht Hr.
  destruct (for_each_Ok_inv _ (@rule_body_extends root txns) _ _ H _ Hr)
    as (wa & wb & evs & X & E).
  unfold M_bind at 1, reading at 1 in E.
  destruct (account_lookup_by_path (book wa) (Some root) path) as [dst|e];
    [|discriminate].
  pose proof (extends_frame X) as F.
  rewrite <- (same_frame_splits F).
  apply (apply_rule_Ok_two_splits _ _ _ E t Ht).
  rewrite (same_frame_description F). reflexivity.
Qed.

(** What a scan that completes has found on its way. *)
Lemma process_account_Ok_inv :
  forall root da_rules year month account_path w w',
  process_account root da_rules year month account_path w = (Ok tt, w') ->
  exists account,
    account_lookup_by_path (book w) (Some root) account_path
    = Ok (Some account)
    /\ (forall desc path, In (desc, path) da_rules ->
          is_ok (account_lookup_by_path (book w) (Some root) path) = true)
    /\ (forall t path,
          selected (book w) account year month t ->
          In (Transaction_GetDescription (book w) t, path) da_rules ->
          List.length (Transaction_GetSplitList (book w) t) = 2%nat
          /\ exists d,
               account_lookup_by_path (book w) (Some root) path
               = Ok (Some d)).
Proof.
  intros root da_rules year month account_path w w' H.
  destruct (process_account_extends _ _ _ _ _ _ H) as (evs & X & _ & C).
  destruct (C eq_refl) as (account & Hacc & Hcomplete & Hok).
  exists account. split; [assumption|]. split; [assumption|].
  intros t path Hsel Hr. split.
  - unfold process_account in H.
    unfold M_bind at 1, emit at 1 in H.
    unfold M_bind at 1, reading at 1 in H. cbn [book] in H.
    rewrite Hacc in H.
    unfold M_bind at 1, reading at 1 in H. cbn [book] in H.
    destruct (get_transactions (book w) (Some account) year month)
      as [txns|e] eqn:Et; [|discriminate].
    unfold M_bind at 1, reading at 1 in H. cbn [book] in H.
    pose proof (@for_each_rule_Ok_two_splits _ _ _ _ _ H t path) as L.
    cbn [book] in L. apply L; [|exact Hr].
    apply filter_In. split; [|apply Hsel].
    apply (get_transactions_In _ _ _ _ Et). split; apply Hsel.
  - destruct (Hcomplete _ _ Hsel Hr) as (s & d & Hl & _).
    exists d; assumption.
Qed.

(** X2: a scan of one account completes only if the scanned path resolves
    to an account, every rule's destination path is looked up without a
    failure, and every selected transaction whose description is a trigger
    has exactly two splits and a rule whose destination path resolves to an
    account. *)
Theorem process_account_completes_only_if :
  forall root da_rules year month account_path w w',
  process_account root da_rules year month account_path w = (Ok tt, w') ->
  exists account,
    account_lookup_by_path (book w) (Some root) account_path
    = Ok (Some account)
    /\ (forall desc path, In (desc, path) da_rules ->
          is_ok (account_lookup_by_path (book w) (Some root) path) = true)
    /\ (forall t path,
          selected (book w) account year month t ->
          In (Transaction_GetDescription (book w) t, path) da_rules ->
          List.length (Transaction_GetSplitList (book w) t) = 2%nat
          /\ exists d,
               account_lookup_by_path (book w) (Some root) path
               = Ok (Some d)).
Proof.
  intros root da_rules year month account_path w w' H.
  exact (process_account_Ok_inv _ _ _ _ _ _ H).
Qed.

Lemma process_account_completes_only_if_witness :
  exists account,
    account_lookup_by_path Demo.ledger (Some 0%nat) "Assets:Bank"
    = Ok (Some account)
    /\ List.length (Transaction_GetSplitList Demo.ledger 10%nat) = 2%nat.
Proof.
  assert (Hrun : process_account 0%nat
                   [("LIDL", "Expenses:Food"); ("RYANAIR", "Expenses:Travel")]
                   2026 3 "Assets:Bank" (Demo.running Demo.ledger)
                 = (Ok tt,
                    snd (process_account 0%nat
                           [("LIDL", "Expenses:Food");
                            ("RYANAIR", "Expenses:Travel")]
                           2026 3 "Assets:Bank" (Demo.running Demo.ledger))))
    by (vm_compute; reflexivity).
  destruct (process_account_completes_only_if _ _ _ _ _ _ Hrun)
    as (account & Hacc & _ & Hsel).
  exists account. split; [exact Hacc|].
  vm_compute in Hacc. injection Hacc as Hacc. subst account.
  refine (proj1 (Hsel 10%nat "Expenses:Food" _ _)).
  - split; [exists 100%nat; split|split].
    + vm_compute; tauto.
    + vm_compute; reflexivity.
    + vm_compute; reflexivity.
    + vm_compute; reflexivity.
  - left; reflexivity.
Defined.

(** A loop completes when its body completes on every element from every
    world that satisfies an invariant it keeps. *)
Lemma for_each_total : forall A (body : A -> M unit) (Inv : World -> Prop) l,
  (forall x w, In x l -> Inv w ->
     exists w', body x w = (Ok tt, w') /\ Inv w') ->
  forall w, Inv w ->
    exists w', for_each l body w = (Ok tt, w') /\ Inv w'.
Proof.
  intros A body Inv; induction l as [|x l IH]; intros Hbody w Hw; simpl.
  - exists w. split; [reflexivity|assumption].
  - destruct (Hbody x w (or_introl eq_refl) Hw) as (w1 & E1 & Hw1).
    destruct (IH (fun y w0 Hy => Hbody y w0 (or_intror Hy)) w1 Hw1)
      as (w' & E & Hw').
    exists w'. unfold M_bind. rewrite E1. split; assumption.
Qed.

Lemma single_currency_frame : forall b b',
  same_frame b b' -> single_currency b -> single_currency b'.
Proof.
  intros b b' F H a a'. unfold mnemonic_of.
  destruct F as (_ & _ & Hc & _). rewrite Hc. apply H.
Qed.

Lemma set_dst_account_single_currency : forall txn d w,
  single_currency (book w) ->
  List.length (Transaction_GetSplitList (book w) txn) = 2%nat ->
  exists w', set_dst_account txn (Some d) w = (Ok tt, w')
             /\ same_frame (book w) (book w').
Proof.
  intros txn d w Hsc Hlen.
  destruct (Transaction_GetSplitList (book w) txn)
    as [|s0 [|s1 [|s2 rest]]] eqn:Hs; try discriminate.
  rewrite (set_dst_account_two_splits w txn d Hs).
  rewrite (proj2 (String.eqb_eq _ _) (Hsc _ _)).
  eexists. split; [reflexivity|].
  exact (same_frame_SetAccount (book w) _ (Some d)).
Qed.

Lemma apply_rule_single_currency : forall txns description d w,
  single_currency (book w) ->
  (forall t, In t txns ->
     Transaction_GetDescription (book w) t = description ->
     List.length (Transaction_GetSplitList (book w) t) = 2%nat) ->
  exists w', apply_rule txns description (Some d) w = (Ok tt, w')
             /\ same_frame (book w) (book w').
Proof.
  intros txns description d w Hsc Hlen.
  unfold apply_rule, M_bind, reading.
  apply (@for_each_total _ (fun txn => set_dst_account txn (Some d))
           (fun w1 => same_frame (book w) (book w1))).
  - intros t w1 Hin F. apply filter_In in Hin. destruct Hin as (Hin & Hd).
    apply String.eqb_eq in Hd.
    destruct (@set_dst_account_single_currency t d w1) as (w2 & E & F2).
    + apply (single_currency_frame F Hsc).
    + rewrite (same_frame_splits F). apply Hlen; assumption.
    + exists w2. split; [assumption|]. eapply same_frame_trans; eassumption.
  - apply same_frame_refl.
Qed.

Lemma for_each_rule_single_currency : forall root txns da_rules w,
  single_currency (book w) ->
  (forall desc path, In (desc, path) da_rules ->
     exists d, account_lookup_by_path (book w) (Some root) path
               = Ok (Some d)) ->
  (forall t path, In t txns ->
     In (Transaction_GetDescription (book w) t, path) da_rules ->
     List.length (Transaction_GetSplitList (book w) t) = 2%nat) ->
  exists w',
    for_each da_rules
      (fun item : string * string =>
         let (desc, dst_account_path) := item in
         (dst_account <- reading (fun b =>
                           account_lookup_by_path b (Some root)
                                                  dst_account_path) ;;
          apply_rule txns desc dst_account)%M) w = (Ok tt, w')
    /\ same_frame (book w) (book w').
Proof.
  intros root txns da_rules w Hsc Hpaths Hlen.
  apply (@for_each_total _ _ (fun w1 => same_frame (book w) (book w1))).
  - intros [desc path] w1 Hin F.
    unfold M_bind at 1, reading at 1.
    rewrite (account_lookup_by_path_frame _ _ F).
    destruct (Hpaths _ _ Hin) as (d & ->).
    destruct (@apply_rule_single_currency txns desc d w1) as (w2 & E & F2).
    + apply (single_currency_frame F Hsc).
    + intros t Ht Hd. rewrite (same_frame_description F) in Hd.
      rewrite (same_frame_splits F). apply (Hlen t path Ht).
      rewrite Hd. assumption.
    + exists w2. split; [assumption|]. eapply same_frame_trans; eassumption.
  - apply same_frame_refl.
Qed.

(** Conditions under which a scan completes. *)
Lemma process_account_total :
  forall root da_rules year month account_path w account,
  single_currency (book w) ->
  month_representable year month ->
  account_lookup_by_path (book w) (Some root) account_path
  = Ok (Some account) ->
  (forall desc path, In (desc, path) da_rules ->
     exists d, account_lookup_by_path (book w) (Some root) path
               = Ok (Some d)) ->
  (forall t path,
     selected (book w) account year month t ->
     In (Transaction_GetDescription (book w) t, path) da_rules ->
     List.length (Transaction_GetSplitList (book w) t) = 2%nat) ->
  fst (process_account root da_rules year month account_path w) = Ok tt.
Proof.
  intros root da_rules year month account_path w account
         Hsc Hrep Hacc Hpaths Hlen.
  unfold process_account.
  unfold M_bind at 1, emit at 1.
  unfold M_bind at 1, reading at 1. cbn [book]. rewrite Hacc.
  unfold M_bind at 1, reading at 1. cbn [book].
  pose proof (get_transactions_within (book w) account Hrep) as Et.
  rewrite Et.
  unfold M_bind at 1, reading at 1. cbn [book].
  match goal with
  | |- fst (for_each _ _ ?w0) = _ =>
      destruct (@for_each_rule_single_currency root
                  (filter (is_imbalanced (book w))
                     (map (Split_parent (book w))
                        (filter (fun s => within_month
                                   (Transaction_GetDate (book w)
                                      (Split_parent (book w) s)) year month)
                           (Account_GetSplitList (book w) account))))
                  da_rules w0) as (w' & E & _)
  end.
  - exact Hsc.
  - exact Hpaths.
  - cbn [book]. intros t path Ht Hr. apply (Hlen t path); [|exact Hr].
    apply filter_In in Ht. destruct Ht as (Ht & Himb).
    apply (get_transactions_In _ _ _ _ Et) in Ht.
    unfold selected. tauto.
  - rewrite E. reflexivity.
Qed.

(** X3: in a book whose accounts all have commodities of the same mnemonic,
    a scan of one account completes whenever the month boundaries exist, the
    scanned path and the destination path of every rule resolve to
    accounts, and every selected transaction whose description is a trigger
    has exactly two splits. *)
Theorem process_account_completes :
  forall root da_rules year month account_path w account,
  single_currency (book w) ->
  month_representable year month ->
  account_lookup_by_path (book w) (Some root) account_path
  = Ok (Some account) ->
  (forall desc path, In (desc, path) da_rules ->
     exists d, account_lookup_by_path (book w) (Some root) path
               = Ok (Some d)) ->
  (forall t path,
     selected (book w) account year month t ->
     In (Transaction_GetDescription (book w) t, path) da_rules ->
     List.length (Transaction_GetSplitList (book w) t) = 2%nat) ->
  fst (process_account root da_rules year month account_path w) = Ok tt.
Proof.
  intros root da_rules year month account_path w account
         Hsc Hrep Hacc Hpaths Hlen.
  exact (@process_account_total root da_rules year month account_path w
           account Hsc Hrep Hacc Hpaths Hlen).
Qed.

Lemma process_account_completes_witness :
  fst (process_account 0%nat
         [("LIDL", "Expenses:Food"); ("RYANAIR", "Expenses:Travel")]
         2026 3 "Assets:Bank" (Demo.running Demo.ledger_pln)) = Ok tt.
Proof.
  apply (@process_account_completes 0%nat _ 2026 3 "Assets:Bank"
           (Demo.running Demo.ledger_pln) 2%nat).
  - intros a a'. reflexivity.
  - unfold month_representable, MINYEAR, MAXYEAR. lia.
  - vm_compute; reflexivity.
  - intros desc path [E|[E|[]]]; inversion E; subst;
      eexists; vm_compute; reflexivity.
  - intros t path ((s & Hs & Hp) & _) _.
    vm_compute in Hs.
    destruct Hs as [<-|[<-|[<-|[<-|[<-|[]]]]]]; vm_compute in Hp;
      subst t; reflexivity.
Defined.

(** X4: a run of [process] completes only if the rules document has both
    keys, every scanned path resolves to an account and, when there is an
    account to scan, every rule's destination path is looked up without a
    failure, all in the book as it is when the run starts. *)
Theorem process_completes_only_if : forall root rules year month w w',
  process root rules year month w = (Ok tt, w') ->
  exists config accounts,
    doc_rules rules = Some config
    /\ doc_accounts_to_scan rules = Some accounts
    /\ (forall account_path, In account_path accounts ->
          exists account,
            account_lookup_by_path (book w) (Some root) account_path
            = Ok (Some account))
    /\ (accounts <> [] ->
        forall desc path, In (desc, path) (rules2darules config) ->
          is_ok (account_lookup_by_path (book w) (Some root) path) = true).
Proof.
  intros root rules year month w w' H.
  destruct (doc_rules rules) as [config|] eqn:Hr;
    [|unfold process, M_bind, lift, RulesDoc_rules in H;
      rewrite Hr in H; discriminate].
  destruct (doc_accounts_to_scan rules) as [accounts|] eqn:Ha;
    [|unfold process, M_bind, lift, RulesDoc_rules, RulesDoc_accounts in H;
      rewrite Hr, Ha in H; discriminate].
  rewrite (process_unfold root rules year month w Hr Ha) in H.
  exists config, accounts. split; [reflexivity|]. split; [reflexivity|].
  assert (Heach : forall p, In p accounts ->
            exists wa wb evs,
              extends w wa evs
              /\ process_account root (rules2darules config) year month p wa
                 = (Ok tt, wb)).
  { apply (@for_each_Ok_inv _
             (process_account root (rules2darules config) year month)
             (fun x w0 r w1 E =>
                let (evs, P) := process_account_extends _ _ _ _ _ _ E in
                ex_intro _ evs (proj1 P))
             _ _ _ H). }
  split.
  - intros p Hp. destruct (Heach p Hp) as (wa & wb & evs & X & E).
    destruct (process_account_Ok_inv _ _ _ _ _ _ E)
      as (account & Hacc & _).
    rewrite (account_lookup_by_path_frame _ _ (extends_frame X)) in Hacc.
    exists account; assumption.
  - intros Hne desc path Hin.
    destruct accounts as [|p accounts]; [congruence|].
    destruct (Heach p (or_introl eq_refl)) as (wa & wb & evs & X & E).
    destruct (process_account_Ok_inv _ _ _ _ _ _ E)
      as (account & _ & Hok & _).
    rewrite <- (account_lookup_by_path_frame _ _ (extends_frame X)).
    apply (Hok desc path Hin).
Qed.

Lemma process_completes_only_if_witness :
  exists account,
    account_lookup_by_path Demo.ledger (Some 0%nat) "Assets:Bank"
    = Ok (Some account).
Proof.
  assert (Hrun : process 0%nat Demo.rules 2026 3 (Demo.running Demo.ledger)
                 = (Ok tt,
                    snd (process 0%nat Demo.rules 2026 3
                           (Demo.running Demo.ledger))))
    by (vm_compute; reflexivity).
  destruct (process_completes_only_if _ _ _ _ _ Hrun)
    as (config & accounts & _ & Ha & Hres & _).
  injection Ha as Ha. subst accounts.
  exact (Hres "Assets:Bank" (or_introl eq_refl)).
Defined.

(** X5: on a two-split transaction whose source and destination accounts
    have commodities of different mnemonics, when the script's [PriceDb] is
    unset or the price database returns no price, [set_dst_account] fails
    with an attribute error after it has moved the destination split: the
    edit is begun and never committed, and the amount is not converted. *)
Theorem set_dst_account_missing_price : forall w txn d s0 s1,
  Transaction_GetSplitList (book w) txn = [s0; s1] ->
  let b := book w in
  let dst := if is_split_imbalanced b s0 then s0 else s1 in
  let src := if is_split_imbalanced b s0 then s1 else s0 in
  let src_account := Split_GetAccount b src in
  mnemonic_of b src_account <> mnemonic_of b d ->
  match PriceDb w with
  | None => True
  | Some lookup_nearest_in_time64 =>
      lookup_nearest_in_time64 (Account_GetCommodity b src_account)
        (Account_GetCommodity b d) (Transaction_GetDate b txn) = None
  end ->
  set_dst_account txn (Some d) w =
  (Raise AttributeError,
   mk_World (Split_SetAccount b dst (Some d)) (PriceDb w)
     (trace w ++ [printed_txn b txn s0; BeginEdit txn;
                  SetAccount dst (Some d)])).
Proof.
  intros w txn d s0 s1 Hs b dst src src_account Hne Hprice.
  rewrite (set_dst_account_two_splits w txn d Hs).
  fold b dst src src_account.
  apply String.eqb_neq in Hne. rewrite Hne.
  unfold converted, res_bind, deref. fold b.
  destruct (PriceDb w) as [db|]; [|reflexivity].
  rewrite Hprice. reflexivity.
Qed.

Lemma set_dst_account_missing_price_witness :
  fst (set_dst_account 11%nat (Some 5%nat) (Demo.opened Demo.ledger))
  = Raise AttributeError
  /\ Split_GetAccount
       (book (snd (set_dst_account 11%nat (Some 5%nat)
                     (Demo.opened Demo.ledger)))) 102%nat = 5%nat.
Proof.
  pose proof (@set_dst_account_missing_price (Demo.opened Demo.ledger)
                11%nat 5%nat 102%nat 103%nat eq_refl) as H.
  cbv zeta in H.
  assert (Hne : mnemonic_of (book (Demo.opened Demo.ledger))
                  (Split_GetAccount (book (Demo.opened Demo.ledger))
                     (if is_split_imbalanced (book (Demo.opened Demo.ledger))
                           102%nat
                      then 103%nat else 102%nat))
                <> mnemonic_of (book (Demo.opened Demo.ledger)) 5%nat)
    by (vm_compute; discriminate).
  pose proof (H Hne I) as E.
  split.
  - exact (f_equal fst E).
  - exact (f_equal (fun r => Split_GetAccount (book (snd r)) 102%nat) E).
Defined.

(** X6: when [get_transactions] returns, the account is not [None] and the
    result is, in the order of the account's split list and once per split,
    the parent of every split dated within the month; so a transaction with
    two such splits in the account is listed twice. *)
Theorem get_transactions_one_per_split : forall b account year month txns,
  get_transactions b account year month = Ok txns ->
  exists a,
    account = Some a
    /\ txns = map (Split_parent b)
                (filter (fun s => within_month
                                    (Transaction_GetDate b (Split_parent b s))
                                    year month)
                        (Account_GetSplitList b a)).
Proof.
  intros b account year month txns H.
  destruct account as [a|]; [|discriminate]. exists a. split; [reflexivity|].
  unfold get_transactions in H; simpl in H. unfold res_bind at 1 in H.
  destruct (filter_res _ _) as [kept|e] eqn:Ek; [|discriminate].
  injection H as <-. f_equal.
  destruct (filter_out_cases year month) as [Hdec|Hraise].
  - rewrite filter_res_total
      with (f := fun s => within_month
                            (Transaction_GetDate b (Split_parent b s))
                            year month) in Ek.
    + injection Ek as <-. reflexivity.
    + intros s. rewrite Hdec; simpl. rewrite negb_involutive. reflexivity.
  - destruct (Account_GetSplitList b a) as [|s l].
    + simpl in Ek. injection Ek as <-. reflexivity.
    + simpl in Ek.
      destruct (Hraise (Transaction_GetDate b (Split_parent b s))) as (e & He).
      rewrite He in Ek. discriminate.
Qed.

Lemma get_transactions_one_per_split_witness :
  exists a, Some 2%nat = Some a
            /\ [10; 11; 13; 14]%nat
               = map (Split_parent Demo.ledger)
                   (filter (fun s => within_month
                              (Transaction_GetDate Demo.ledger
                                 (Split_parent Demo.ledger s)) 2026 3)
                      (Account_GetSplitList Demo.ledger a)).
Proof.
  apply (@get_transactions_one_per_split Demo.ledger (Some 2%nat) 2026 3).
  vm_compute; reflexivity.
Defined.

(** X7: [filter_out] returns for every datetime when the year is in
    1..9999 and the month in 1..12, December 9999 excepted; otherwise it
    raises for every datetime: an overflow error when the year or the month
    does not fit a C integer, a value error when both do. *)
Theorem filter_out_raises_iff : forall dt year month,
  (month_representable year month ->
   filter_out dt year month = Ok (negb (within_month dt year month)))
  /\ (~ month_representable year month ->
      filter_out dt year month
      = Raise (if fits_c_int year && fits_c_int month
               then ValueError else OverflowError)).
Proof.
  intros dt year month. split; [apply filter_out_within|].
  intros Hnot. unfold filter_out.
  assert (H1 : fits_c_int 1 = true) by reflexivity.
  destruct (fits_c_int year && fits_c_int month) eqn:Efit.
  - apply andb_true_iff in Efit. destruct Efit as (Fy & Fm).
    unfold datetime_new at 1. rewrite Fy, Fm, H1. simpl negb. cbv iota.
    pose proof (days_in_month_pos year month) as Hd1.
    unfold month_representable, MINYEAR, MAXYEAR in *.
    destruct (1 <=? year) eqn:E1; simpl; [|reflexivity].
    destruct (year <=? 9999) eqn:E2; simpl; [|reflexivity].
    destruct (1 <=? month) eqn:E3; simpl; [|reflexivity].
    destruct (month <=? 12) eqn:E4; simpl; [|reflexivity].
    apply Z.leb_le in E1, E2, E3, E4.
    replace (1 <=? days_in_month year month) with true
      by (symmetry; apply Z.leb_le; lia). simpl.
    destruct (month =? 12) eqn:E5.
    + apply Z.eqb_eq in E5.
      assert (year = 9999) by lia. subst year. reflexivity.
    + apply Z.eqb_neq in E5. exfalso. apply Hnot. lia.
  - unfold datetime_new at 1. rewrite H1, andb_true_r, Efit. reflexivity.
Qed.

(** X8: on every path string and from every start, path lookup never fails
    with an index error: it raises an attribute error exactly when the start
    is [None] or a component other than the last is not found, and
    otherwise returns what the lookup of the last component returns, [None]
    when that one is not found. *)
Theorem account_lookup_by_path_closed_form : forall b start path_str,
  let components := split ":" path_str in
  account_lookup_by_path b start path_str =
  match walk b start (removelast components) with
  | Some a => Ok (Account_lookup_by_name b a (last components ""))
  | None => Raise AttributeError
  end.
Proof.
  intros b start path_str components.
  unfold account_lookup_by_path. subst components.
  generalize (@split_nonempty ":" path_str).
  generalize (split ":" path_str) as l. intros l Hl.
  rewrite (app_removelast_last "" Hl) at 1. apply lookup_path_walk.
Qed.

(** X9: on a two-split transaction of which at most one split lies in an
    imbalance account, [set_dst_account] with a destination whose name does
    not start with "Imbalance-" leaves, in the book as it is right after the
    call, no split of the transaction in an imbalance account, whether the
    call completes or fails after the move. *)
Theorem set_dst_account_clears_imbalance : forall w txn d s0 s1,
  Transaction_GetSplitList (book w) txn = [s0; s1] ->
  s0 <> s1 ->
  is_split_imbalanced (book w) s0 && is_split_imbalanced (book w) s1 = false ->
  startswith (Account_GetName (book w) d) "Imbalance-" = false ->
  is_imbalanced (book (snd (set_dst_account txn (Some d) w))) txn = false.
Proof.
  intros w txn d s0 s1 Hs Hne Hone Hd.
  rewrite (set_dst_account_two_splits w txn d Hs).
  assert (H01 : Nat.eqb s0 s1 = false) by (apply Nat.eqb_neq; assumption).
  assert (H10 : Nat.eqb s1 s0 = false)
    by (apply Nat.eqb_neq; congruence).
  assert (Hfinal : forall b',
            Transaction_GetSplitList b' txn = [s0; s1] ->
            Account_GetName b' = Account_GetName (book w) ->
            Split_GetAccount b'
            = update (Split_GetAccount (book w))
                (if is_split_imbalanced (book w) s0 then s0 else s1) d ->
            is_imbalanced b' txn = false).
  { intros b' Hs' Hn' Ha'.
    unfold is_imbalanced, is_split_imbalanced. rewrite Hs', Hn', Ha'.
    unfold is_split_imbalanced in *. unfold update. simpl.
    destruct (startswith
                (Account_GetName (book w) (Split_GetAccount (book w) s0))
                "Imbalance-") eqn:E0; simpl in Hone;
      rewrite ?Nat.eqb_refl, ?H01, ?H10, ?Hd, ?E0, ?Hone; reflexivity. }
  destruct (String.eqb _ _);
    [|destruct (converted _ _ _ _ _)];
    apply Hfinal; try reflexivity; exact Hs.
Qed.

Lemma set_dst_account_clears_imbalance_witness :
  is_imbalanced
    (book (snd (set_dst_account 10%nat (Some 4%nat)
                  (Demo.running Demo.ledger)))) 10%nat = false.
Proof.
  apply (@set_dst_account_clears_imbalance (Demo.running Demo.ledger)
           10%nat 4%nat 100%nat 101%nat).
  - reflexivity.
  - discriminate.
  - vm_compute; reflexivity.
  - vm_compute; reflexivity.
Defined.

(** X10: for every configuration, the keys of the rules table are exactly
    the triggers the configuration lists, and the destination a trigger is
    mapped to is one of those that list it. *)
Theorem rules2darules_sound : forall config key,
  (In key (dict_keys (rules2darules config)) <->
   exists target descs, In (target, descs) config /\ In key descs)
  /\ (forall target,
        dict_get (rules2darules config) key = Some target ->
        exists descs, In (target, descs) config /\ In key descs).
Proof.
  intros config key. split.
  - unfold rules2darules. rewrite rules2darules_fold, fold_assign_keys.
    split.
    + intros [H|[]]. apply in_map_iff in H.
      destruct H as ([k t] & E & H). simpl in E; subst k.
      apply assignments_In in H. destruct H as (ds & H1 & H2).
      exists t, ds. split; assumption.
    + intros (t & ds & H1 & H2). left. apply in_map_iff.
      exists (key, t). split; [reflexivity|].
      apply assignments_In. exists ds. split; assumption.
  - intros target H. rewrite rules2darules_get in H.
    apply last_assigned_In, assignments_In in H. exact H.
Qed.

(** X11: when no listed transaction has the rule's description,
    [apply_rule] completes and changes nothing, whatever the destination,
    [None] included: a destination that does not exist goes unnoticed. *)
Theorem apply_rule_no_match : forall txns description dst_account w,
  (forall t, In t txns ->
     Transaction_GetDescription (book w) t <> description) ->
  apply_rule txns description dst_account w = (Ok tt, w).
Proof.
  intros txns description dst_account w H.
  unfold apply_rule, M_bind, reading.
  replace (filter _ txns) with (@nil Transaction); [reflexivity|].
  symmetry. induction txns as [|t txns IH]; [reflexivity|].
  simpl. destruct (String.eqb _ _) eqn:E.
  - apply String.eqb_eq in E. exfalso. apply (H t); [left; reflexivity|exact E].
  - apply IH. intros t' Ht'. apply H. right; assumption.
Qed.

Lemma apply_rule_no_match_witness :
  apply_rule [10; 11; 14]%nat "BIEDRONKA" None (Demo.running Demo.ledger)
  = (Ok tt, Demo.running Demo.ledger).
Proof.
  apply apply_rule_no_match.
  intros t [<-|[<-|[<-|[]]]]; vm_compute; discriminate.
Defined.

Lemma only_emits_for_each : forall A P (body : A -> M unit) l,
  (forall x, only_emits P (body x)) -> only_emits P (for_each l body).
Proof.
  intros A P body; induction l as [|x l IH]; intros Hbody w r w' H;
    simpl in H.
  - inversion H; subst. exists []. rewrite app_nil_r. split; reflexivity.
  - unfold M_bind in H. destruct (body x w) as [r1 w1] eqn:E1.
    destruct (Hbody x _ _ _ E1) as (evs1 & T1 & P1).
    destruct r1 as [[]|e].
    + destruct (IH Hbody _ _ _ H) as (evs2 & T2 & P2).
      exists (evs1 ++ evs2). rewrite T2, T1, app_assoc.
      split; [reflexivity|]. rewrite forallb_app, P1, P2. reflexivity.
    + inversion H; subst. exists evs1. split; assumption.
Qed.

Lemma set_dst_account_run_events : forall txn dst_account,
  only_emits run_event (set_dst_account txn dst_account).
Proof.
  intros txn dst_account w r w' H.
  destruct (Transaction_GetSplitList (book w) txn)
    as [|s0 [|s1 [|s2 rest]]] eqn:Hs.
  - rewrite set_dst_account_no_split in H by assumption.
    inversion H; subst. exists []. rewrite app_nil_r. split; reflexivity.
  - rewrite (@set_dst_account_not_two w txn dst_account s0 []) in H
      by (assumption || (simpl; congruence)).
    inversion H; subst. eexists. split; reflexivity.
  - destruct dst_account as [d|].
    + rewrite (set_dst_account_two_splits w txn d Hs) in H.
      destruct (String.eqb _ _);
        [|destruct (converted _ _ _ _ _)];
        inversion H; subst; eexists; split; reflexivity.
    + rewrite (set_dst_account_two_splits_None w txn Hs) in H.
      inversion H; subst. eexists. split; reflexivity.
  - rewrite (@set_dst_account_not_two w txn dst_account s0 (s1 :: s2 :: rest))
      in H by (assumption || (simpl; congruence)).
    inversion H; subst. eexists. split; reflexivity.
Qed.

Lemma process_account_run_events :
  forall root da_rules year month account_path,
  only_emits run_event
    (process_account root da_rules year month account_path).
Proof.
  intros root da_rules year month account_path w r w' H.
  unfold process_account in H.
  unfold M_bind at 1, emit at 1 in H.
  unfold M_bind at 1, reading at 1 in H. cbn [book] in H.
  destruct (account_lookup_by_path (book w) (Some root) account_path)
    as [account|e];
    [|inversion H; subst; eexists; split; reflexivity].
  unfold M_bind at 1, reading at 1 in H. cbn [book] in H.
  destruct (get_transactions (book w) account year month) as [txns|e];
    [|inversion H; subst; eexists; split; reflexivity].
  unfold M_bind at 1, reading at 1 in H. cbn [book] in H.
  match type of H with
  | for_each _ ?body _ = _ =>
      assert (Hbody : forall item, only_emits run_event (body item))
  end.
  { intros [desc path] w1 r1 w1' H1.
    unfold M_bind at 1, reading at 1 in H1.
    destruct (account_lookup_by_path (book w1) (Some root) path) as [dst|e];
      [|inversion H1; subst; exists []; rewrite app_nil_r;
        split; reflexivity].
    unfold apply_rule, M_bind, reading in H1.
    exact (@only_emits_for_each _ run_event _ _
             (fun t => @set_dst_account_run_events t dst) _ _ _ H1). }
  destruct (@only_emits_for_each _ run_event _ _ Hbody _ _ _ H)
    as (evs & T & P).
  cbn [trace] in T.
  exists (Printed account_path :: evs).
  rewrite T, <- app_assoc. split; [reflexivity|exact P].
Qed.

Lemma process_run_events : forall root rules year month,
  only_emits run_event (process root rules year month).
Proof.
  intros root rules year month w r w' H.
  unfold process, M_bind, lift in H.
  destruct (RulesDoc_rules rules) as [config|e];
    [|inversion H; subst; exists []; rewrite app_nil_r; split; reflexivity].
  destruct (RulesDoc_accounts rules) as [accounts|e];
    [|inversion H; subst; exists []; rewrite app_nil_r; split; reflexivity].
  exact (@only_emits_for_each _ run_event _ _
           (fun p => @process_account_run_events root (rules2darules config)
                       year month p) _ _ _ H).
Qed.

Lemma main_unfold : forall rules year month w,
  main rules year month w =
  let (r, w1) :=
    process (get_root_account (book w)) rules year month
      (mk_World (book w) (Some (get_price_db (book w))) (trace w)) in
  (r, mk_World (book w1) (PriceDb w1)
        (trace w1 ++ (if is_ok r then [Save; Save; End_] else [End_]))).
Proof.
  intros rules year month w.
  unfold main, with_Session, Session_exit, M_bind, reading, set_PriceDb,
    emit, M_ret.
  cbn [book PriceDb trace].
  destruct (process _ _ _ _ _) as [[[]|e] w1];
    cbn [is_ok book PriceDb trace]; rewrite <- ?app_assoc; reflexivity.
Qed.

(** X12: [main] returns what [process] returns, run on the root account
    with [PriceDb] set to the book's price database, so a failure of the
    processing leaves [main] uncaught.  The run proper adds no session event
    to the trace; after it the session saves twice (the script's own call
    and the one of the scoped block) and ends when the processing
    completed, and only ends, without any save, when it failed. *)
Theorem main_saves_iff_completes : forall rules year month w,
  let started :=
    mk_World (book w) (Some (get_price_db (book w))) (trace w) in
  let r := fst (process (get_root_account (book w)) rules year month started) in
  fst (main rules year month w) = r
  /\ exists evs,
       forallb run_event evs = true
       /\ trace (snd (main rules year month w))
          = trace w ++ evs ++ (if is_ok r then [Save; Save; End_] else [End_])
       /\ book (snd (main rules year month w))
          = book (snd (process (get_root_account (book w)) rules year month
                         started)).
Proof.
  intros rules year month w started r. subst r.
  rewrite main_unfold. fold started.
  destruct (process (get_root_account (book w)) rules year month started)
    as [r w1] eqn:E.
  destruct (process_run_events _ _ _ _ _ E) as (evs & T & P).
  cbn [trace started] in T. cbn [fst snd trace book].
  split; [reflexivity|]. exists evs. split; [exact P|].
  rewrite T, <- app_assoc. split; reflexivity.
Qed.

Lemma single_currency_two_splits_body :
  forall root da_rules year month w0 p w,
  single_currency (book w0) -> two_splits_each (book w0) ->
  month_representable year month ->
  (exists a, account_lookup_by_path (book w0) (Some root) p = Ok (Some a)) ->
  (forall desc path, In (desc, path) da_rules ->
     exists d, account_lookup_by_path (book w0) (Some root) path
               = Ok (Some d)) ->
  same_frame (book w0) (book w) ->
  exists w', process_account root da_rules year month p w = (Ok tt, w')
             /\ same_frame (book w0) (book w').
Proof.
  intros root da_rules year month w0 p w Hsc Htwo Hrep (a & Ha) Hpaths F.
  pose proof (single_currency_frame F Hsc) as Hsc'.
  assert (Hok : fst (process_account root da_rules year month p w) = Ok tt).
  { apply (@process_account_total root da_rules year month p w a).
    - exact Hsc'.
    - exact Hrep.
    - rewrite (account_lookup_by_path_frame _ _ F). exact Ha.
    - intros desc path Hin.
      rewrite (account_lookup_by_path_frame _ _ F). eapply Hpaths; eassumption.
    - intros t path ((s & Hs & Hp) & _) _.
      unfold Account_GetSplitList in Hs. apply filter_In in Hs.
      destruct Hs as (Hs & _).
      destruct F as (_ & _ & _ & _ & Hall & Hpar & Hspl & _).
      rewrite Hall in Hs. rewrite <- Hp, Hpar, Hspl. apply Htwo. exact Hs. }
  destruct (process_account root da_rules year month p w) as [r w'] eqn:E.
  simpl in Hok. subst r. exists w'. split; [reflexivity|].
  destruct (process_account_extends _ _ _ _ _ _ E) as (evs & X & _).
  eapply same_frame_trans; [exact F|exact (extends_frame X)].
Qed.

(** X13: in a book whose accounts all have commodities of the same mnemonic
    and whose splits all belong to transactions of two splits, a run of
    [process] completes whenever the rules document has both keys, the
    month boundaries exist, and every scanned path and every rule's
    destination path resolve to accounts. *)
Theorem process_completes : forall root rules year month w config accounts,
  doc_rules rules = Some config ->
  doc_accounts_to_scan rules = Some accounts ->
  single_currency (book w) -> two_splits_each (book w) ->
  month_representable year month ->
  (forall p, In p accounts ->
     exists a, account_lookup_by_path (book w) (Some root) p = Ok (Some a)) ->
  (forall desc path, In (desc, path) (rules2darules config) ->
     exists d, account_lookup_by_path (book w) (Some root) path
               = Ok (Some d)) ->
  fst (process root rules year month w) = Ok tt.
Proof.
  intros root rules year month w config accounts Hr Ha Hsc Htwo Hrep
         Hscan Hpaths.
  rewrite (process_unfold root rules year month w Hr Ha).
  destruct (@for_each_total _
              (process_account root (rules2darules config) year month)
              (fun w1 => same_frame (book w) (book w1)) accounts)
    with (w := w) as (w' & E & _).
  - intros p w1 Hp F.
    apply (@single_currency_two_splits_body root (rules2darules config)
             year month w p w1); auto.
  - apply same_frame_refl.
  - rewrite E. reflexivity.
Qed.

Lemma process_completes_witness :
  fst (process 0%nat Demo.rules 2026 3 (Demo.running Demo.ledger_pln))
  = Ok tt.
Proof.
  apply (@process_completes 0%nat Demo.rules 2026 3
           (Demo.running Demo.ledger_pln) _ _ eq_refl eq_refl).
  - intros a a'. reflexivity.
  - intros s Hs. vm_compute in Hs.
    repeat (destruct Hs as [<-|Hs]; [reflexivity|]). destruct Hs.
  - unfold month_representable, MINYEAR, MAXYEAR. lia.
  - intros p [<-|[]]. eexists. vm_compute; reflexivity.
  - intros desc path Hin. vm_compute in Hin.
    destruct Hin as [E|[E|[E|[]]]]; inversion E; subst;
      eexists; vm_compute; reflexivity.
Defined.

(** X14: when the scanned path does not resolve to an account, the scan
    fails with an attribute error after printing the path and before
    reading or editing anything else. *)
Theorem process_account_unresolved :
  forall root da_rules year month account_path w,
  (forall account,
     account_lookup_by_path (book w) (Some root) account_path
     <> Ok (Some account)) ->
  process_account root da_rules year month account_path w =
  (Raise AttributeError,
   mk_World (book w) (PriceDb w) (trace w ++ [Printed account_path])).
Proof.
  intros root da_rules year month account_path w Hun.
  unfold process_account.
  unfold M_bind at 1, emit at 1.
  unfold M_bind at 1, reading at 1. cbn [book].
  pose proof (account_lookup_by_path_split (book w) (Some root) account_path)
    as (init & last & _ & Hl).
  destruct (account_lookup_by_path (book w) (Some root) account_path)
    as [[account|]|e] eqn:El.
  - exfalso. exact (Hun account eq_refl).
  - reflexivity.
  - destruct (walk (book w) (Some root) init); inversion Hl. reflexivity.
Qed.

Lemma process_account_unresolved_witness :
  fst (process_account 0%nat [("LIDL", "Expenses:Food")] 2026 3
         "Assets:Savings" (Demo.running Demo.ledger))
  = Raise AttributeError.
Proof.
  rewrite (@process_account_unresolved 0%nat [("LIDL", "Expenses:Food")]
             2026 3 "Assets:Savings" (Demo.running Demo.ledger)).
  - reflexivity.
  - intros account. vm_compute. discriminate.
Defined.

(** X15: with [None] for a destination, [set_dst_account] fails on every
    transaction and leaves the book as it was. *)
Theorem set_dst_account_None_fails : forall w txn,
  is_ok (fst (set_dst_account txn None w)) = false
  /\ book (snd (set_dst_account txn None w)) = book w.
Proof.
  intros w txn.
  destruct (Transaction_GetSplitList (book w) txn)
    as [|s0 [|s1 [|s2 rest]]] eqn:Hs.
  - rewrite set_dst_account_no_split by assumption. split; reflexivity.
  - rewrite (@set_dst_account_not_two w txn None s0 [])
      by (assumption || (simpl; congruence)).
    split; reflexivity.
  - rewrite (set_dst_account_two_splits_None w txn Hs). split; reflexivity.
  - rewrite (@set_dst_account_not_two w txn None s0 (s1 :: s2 :: rest))
      by (assumption || (simpl; congruence)).
    split; reflexivity.
Qed.

Lemma amounts_follow_accounts_app : forall evs1 evs2,
  amounts_follow_accounts evs1 -> amounts_follow_accounts evs2 ->
  amounts_follow_accounts (evs1 ++ evs2).
Proof.
  intros evs1 evs2 H1 H2 s n Hin. apply in_app_or in Hin.
  destruct Hin as [Hin|Hin].
  - destruct (H1 _ _ Hin) as (a & Ha). exists a. apply in_or_app; auto.
  - destruct (H2 _ _ Hin) as (a & Ha). exists a. apply in_or_app; auto.
Qed.

Lemma for_each_amounts_follow_accounts : forall A (body : A -> M unit) l,
  (forall x w r w', body x w = (r, w') ->
     exists evs, trace w' = trace w ++ evs /\ amounts_follow_accounts evs) ->
  forall w r w', for_each l body w = (r, w') ->
    exists evs, trace w' = trace w ++ evs /\ amounts_follow_accounts evs.
Proof.
  intros A body; induction l as [|x l IH]; intros Hbody w r w' H;
    simpl in H.
  - inversion H; subst. exists []. rewrite app_nil_r.
    split; [reflexivity|intros s n []].
  - unfold M_bind in H. destruct (body x w) as [r1 w1] eqn:E1.
    destruct (Hbody _ _ _ _ E1) as (evs1 & T1 & P1).
    destruct r1 as [[]|e].
    + destruct (IH Hbody _ _ _ H) as (evs2 & T2 & P2).
      exists (evs1 ++ evs2). rewrite T2, T1, app_assoc.
      split; [reflexivity|]. apply amounts_follow_accounts_app; assumption.
    + inversion H; subst. exists evs1. split; assumption.
Qed.

Lemma set_dst_account_amounts_follow_accounts :
  forall txn dst_account w r w',
  set_dst_account txn dst_account w = (r, w') ->
  exists evs, trace w' = trace w ++ evs /\ amounts_follow_accounts evs.
Proof.
  intros txn dst_account w r w' H.
  assert (Hno : forall evs,
            (forall s n, ~ In (SetAmount s n) evs) ->
            amounts_follow_accounts evs)
    by (intros evs Hn s n Hin; destruct (Hn _ _ Hin)).
  destruct (Transaction_GetSplitList (book w) txn)
    as [|s0 [|s1 [|s2 rest]]] eqn:Hs.
  - rewrite set_dst_account_no_split in H by assumption.
    inversion H; subst. exists []. rewrite app_nil_r.
    split; [reflexivity|intros s n []].
  - rewrite (@set_dst_account_not_two w txn dst_account s0 []) in H
      by (assumption || (simpl; congruence)).
    inversion H; subst. eexists. split; [reflexivity|].
    apply Hno. intros s n [E|[]]. discriminate E.
  - destruct dst_account as [d|].
    + rewrite (set_dst_account_two_splits w txn d Hs) in H.
      destruct (String.eqb _ _);
        [|destruct (converted _ _ _ _ _)];
        inversion H; subst; eexists; (split; [reflexivity|]);
        intros s n Hin; unfold printed_txn in Hin; simpl in Hin;
        repeat (destruct Hin as [Hin|Hin]; [try discriminate Hin|]);
        try contradiction.
      inversion Hin; subst. eexists. right; right; left; reflexivity.
    + rewrite (set_dst_account_two_splits_None w txn Hs) in H.
      inversion H; subst. eexists. split; [reflexivity|].
      apply Hno. intros s n Hin. unfold printed_txn in Hin; simpl in Hin.
      repeat (destruct Hin as [Hin|Hin]; [discriminate Hin|]). destruct Hin.
  - rewrite (@set_dst_account_not_two w txn dst_account s0 (s1 :: s2 :: rest))
      in H by (assumption || (simpl; congruence)).
    inversion H; subst. eexists. split; [reflexivity|].
    apply Hno. intros s n [E|[]]. discriminate E.
Qed.

Lemma process_account_amounts_follow_accounts :
  forall root da_rules year month account_path w r w',
  process_account root da_rules year month account_path w = (r, w') ->
  exists evs, trace w' = trace w ++ evs /\ amounts_follow_accounts evs.
Proof.
  intros root da_rules year month account_path w r w' H.
  assert (Hprinted : amounts_follow_accounts [Printed account_path])
    by (intros s n [E|[]]; discriminate E).
  unfold process_account in H.
  unfold M_bind at 1, emit at 1 in H.
  unfold M_bind at 1, reading at 1 in H. cbn [book] in H.
  destruct (account_lookup_by_path (book w) (Some root) account_path)
    as [account|e];
    [|inversion H; subst; eexists; split; [reflexivity|exact Hprinted]].
  unfold M_bind at 1, reading at 1 in H. cbn [book] in H.
  destruct (get_transactions (book w) account year month) as [txns|e];
    [|inversion H; subst; eexists; split; [reflexivity|exact Hprinted]].
  unfold M_bind at 1, reading at 1 in H. cbn [book] in H.
  match type of H with
  | for_each _ ?body _ = _ =>
      destruct (@for_each_amounts_follow_accounts _ body da_rules)
        with (w := mk_World (book w) (PriceDb w)
                     (trace w ++ [Printed account_path]))
             (r := r) (w' := w') as (evs & T & P)
  end.
  - intros [desc path] w1 r1 w1' H1.
    unfold M_bind at 1, reading at 1 in H1.
    destruct (account_lookup_by_path (book w1) (Some root) path) as [dst|e];
      [|inversion H1; subst; exists []; rewrite app_nil_r;
        split; [reflexivity|intros s n []]].
    unfold apply_rule, M_bind, reading in H1.
    apply (@for_each_amounts_follow_accounts _
             (fun txn => set_dst_account txn dst) _
             (fun t => @set_dst_account_amounts_follow_accounts t dst)
             _ _ _ H1).
  - exact H.
  - cbn [trace] in T. exists ([Printed account_path] ++ evs).
    rewrite T, <- app_assoc. split; [reflexivity|].
    apply amounts_follow_accounts_app; assumption.
Qed.

Lemma replay_untouched : forall s evs b,
  (forall a, ~ In (SetAccount s a) evs) ->
  (forall n, ~ In (SetAmount s n) evs) ->
  Split_GetAccount (replay evs b) s = Split_GetAccount b s
  /\ Split_GetAmount (replay evs b) s = Split_GetAmount b s.
Proof.
  intros s; induction evs as [|e evs IH]; intros b Hacc Hamt.
  - split; reflexivity.
  - change (replay (e :: evs) b) with (replay evs (apply_event b e)).
    destruct (IH (apply_event b e)) as (IHa & IHn).
    + intros a Hin. apply (Hacc a). right; assumption.
    + intros n Hin. apply (Hamt n). right; assumption.
    + rewrite IHa, IHn.
      destruct e as [line|dt desc amt|t|s' a|s' n|t| |]; simpl;
        try (split; reflexivity).
      * assert (s <> s')
          by (intros ->; apply (Hacc a); left; reflexivity).
        destruct a as [a|]; simpl; [|split; reflexivity].
        rewrite update_other by assumption. split; reflexivity.
      * assert (s <> s')
          by (intros ->; apply (Hamt n); left; reflexivity).
        rewrite update_other by assumption. split; reflexivity.
Qed.

(** X16: whatever its outcome, one scan leaves the account and the amount
    of a split as they were unless the split's transaction is one the scan
    selects (reached from the scanned account, dated within the month, with
    a split in an imbalance account) and its description is a trigger of
    the rules. *)
Theorem process_account_touches_selected_only :
  forall root da_rules year month account_path w s,
  parents_consistent (book w) ->
  let b := book w in
  let b' := book (snd (process_account root da_rules year month
                         account_path w)) in
  let t := Split_parent b s in
  ~ (exists account path,
       account_lookup_by_path b (Some root) account_path = Ok (Some account)
       /\ selected b account year month t
       /\ In (Transaction_GetDescription b t, path) da_rules) ->
  Split_GetAccount b' s = Split_GetAccount b s
  /\ Split_GetAmount b' s = Split_GetAmount b s.
Proof.
  intros root da_rules year month account_path w s Hcons b b' t Hnot.
  subst b'.
  destruct (process_account root da_rules year month account_path w)
    as [r w'] eqn:E.
  cbn [snd].
  destruct (process_account_extends _ _ _ _ _ _ E) as (evs & X & S & _).
  destruct (process_account_amounts_follow_accounts _ _ _ _ _ _ E)
    as (evs' & T' & Hfollow).
  destruct X as (_ & _ & T & Hbook).
  assert (evs' = evs) by (rewrite T in T'; apply app_inv_head in T'; auto).
  subst evs'. rewrite Hbook.
  assert (Hacc : forall a, ~ In (SetAccount s a) evs).
  { intros a Hin.
    destruct (S _ _ Hin) as (account & t' & p & Hl & Hs & Hsel & Hr & _).
    apply Hnot. exists account, p.
    assert (t' = t) by (symmetry; apply Hcons; assumption). subst t'.
    split; [exact Hl|]. split; [exact Hsel|exact Hr]. }
  apply replay_untouched; [exact Hacc|].
  intros n Hin. destruct (Hfollow _ _ Hin) as (a & Ha). exact (Hacc a Ha).
Qed.

Lemma process_account_touches_selected_only_witness :
  Split_GetAccount
    (book (snd (process_account 0%nat
                  [("LIDL", "Expenses:Food"); ("RYANAIR", "Expenses:Travel")]
                  2026 3 "Assets:Bank" (Demo.running Demo.ledger))))
    105%nat = 6%nat.
Proof.
  refine (proj1 (@process_account_touches_selected_only 0%nat
                   [("LIDL", "Expenses:Food"); ("RYANAIR", "Expenses:Travel")]
                   2026 3 "Assets:Bank" (Demo.running Demo.ledger) 105%nat
                   Demo_ledger_consistent _)).
  intros (account & path & _ & (_ & Hmonth & _) & _).
  vm_compute in Hmonth. discriminate.
Defined.

(* ================================================================== *)
(** * Runs that fail, runs that complete *)
(* ================================================================== *)

(** A description has an entry in the rules table exactly when the
    configuration lists it as a trigger. *)
Lemma rules2darules_key_iff : forall config key,
  (exists path, dict_get (rules2darules config) key = Some path) <->
  (exists target descs, In (target, descs) config /\ In key descs).
Proof.
  intros config key. rewrite rules2darules_get. split.
  - intros (path & H). apply last_assigned_In, assignments_In in H.
    destruct H as (descs & H1 & H2). exists path, descs. split; assumption.
  - intros (target & descs & H1 & H2).
    destruct (last_assigned (assignments config) key) as [path|] eqn:E;
      [exists path; reflexivity|].
    exfalso. apply last_assigned_None in E. apply E.
    apply in_map_iff. exists (key, target). split; [reflexivity|].
    apply assignments_In. exists descs. split; assumption.
Qed.

(** C1, as amended: on a run of [process] that completes, on a book whose
    splits have the transaction that lists them as parent, for every
    scanned account path, taken in the state [w1] in which its scan starts:
    the transactions reassigned during the scan are exactly those reached
    from a split of the scanned account, dated within the requested month,
    with a split in an account whose name starts with "Imbalance-", and
    whose description is a trigger string of the rules; and each is
    reassigned to the account that the destination path of its rule in the
    rules table resolves to, where the split lies when the scan ends. *)
Theorem process_reassigns_exactly_selected :
  forall root rules year month w w' config before account_path after,
  doc_rules rules = Some config ->
  doc_accounts_to_scan rules = Some (before ++ account_path :: after) ->
  parents_consistent (book w) ->
  process root rules year month w = (Ok tt, w') ->
  exists w1 w2 evs account,
    for_each before
      (process_account root (rules2darules config) year month) w
    = (Ok tt, w1)
    /\ process_account root (rules2darules config) year month account_path w1
       = (Ok tt, w2)
    /\ trace w2 = trace w1 ++ evs
    /\ account_lookup_by_path (book w1) (Some root) account_path
       = Ok (Some account)
    /\ (forall t,
          (exists s a, In (SetAccount s a) evs /\ Split_parent (book w1) s = t)
          <->
          (selected (book w1) account year month t
           /\ exists target descs,
                In (target, descs) config
                /\ In (Transaction_GetDescription (book w1) t) descs))
    /\ (forall s a, In (SetAccount s a) evs ->
          exists path d,
            dict_get (rules2darules config)
              (Transaction_GetDescription (book w1) (Split_parent (book w1) s))
            = Some path
            /\ account_lookup_by_path (book w1) (Some root) path = Ok (Some d)
            /\ a = Some d
            /\ Split_GetAccount (book w2) s = d).
Proof.
  intros root rules year month w w' config before account_path after
         Hr Ha Hcons H.
  destruct (@process_scan_reassigns root rules year month w w' config before
              account_path after Hr Ha Hcons H)
    as (w1 & w2 & evs & account & E1 & E2 & Htr & Hacc & Hiff & Hdst).
  exists w1, w2, evs, account.
  split; [exact E1|]. split; [exact E2|]. split; [exact Htr|].
  split; [exact Hacc|]. split.
  - intros t. rewrite (Hiff t), rules2darules_key_iff. reflexivity.
  - intros s a Hin.
    destruct (Hdst s a Hin) as (path & d & Hg & Hl & Ha' & _ & Hfinal).
    exists path, d. repeat split; assumption.
Qed.

Lemma process_reassigns_exactly_selected_witness :
  let w' := snd (process 0%nat Demo.rules 2026 3 (Demo.running Demo.ledger)) in
  (exists s a, In (SetAccount s a) (trace w') /\ Demo.parent s = 10%nat)
  /\ (forall s a, In (SetAccount s a) (trace w') -> Demo.parent s <> 12%nat).
Proof.
  intros w'.
  assert (Hrun : process 0%nat Demo.rules 2026 3 (Demo.running Demo.ledger)
                 = (Ok tt, w')) by (vm_compute; reflexivity).
  destruct (@process_reassigns_exactly_selected 0%nat Demo.rules 2026 3
              (Demo.running Demo.ledger) w' _ [] "Assets:Bank" []
              eq_refl eq_refl Demo_ledger_consistent Hrun)
    as (w1 & w2 & evs & account & E1 & E2 & Htr & Hacc & Hiff & _).
  cbn [for_each] in E1. unfold M_ret in E1.
  apply (f_equal snd) in E1. cbn [snd] in E1. subst w1.
  apply (f_equal snd) in E2. cbn [snd] in E2. subst w2.
  assert (Hsame : trace w' = evs).
  { rewrite <- (app_nil_l evs).
    change (@nil Event) with (trace (Demo.running Demo.ledger)).
    rewrite <- Htr. vm_compute. reflexivity. }
  vm_compute in Hacc. injection Hacc as Hacc. subst account.
  rewrite Hsame. split.
  - apply (proj2 (Hiff 10%nat)). split.
    + split; [exists 100%nat; split|split].
      * vm_compute; tauto.
      * vm_compute; reflexivity.
      * vm_compute; reflexivity.
      * vm_compute; reflexivity.
    + exists "Expenses:Food", ["LIDL"; "BIEDRONKA"].
      split; [left; reflexivity|left; reflexivity].
  - intros s a Hin Hp.
    assert (Hex : exists s a, In (SetAccount s a) evs
                              /\ Split_parent (book (Demo.running Demo.ledger)) s
                                 = 12%nat)
      by (exists s, a; split; [assumption|exact Hp]).
    apply (proj1 (Hiff 12%nat)) in Hex.
    destruct Hex as ((_ & Hmonth & _) & _). vm_compute in Hmonth. discriminate.
Defined.

(** C1 as stated fails when a selected transaction has three splits:
    transaction 15 of [Demo.ledger3] is reached from the scanned account, is
    dated within March 2026, has a split in "Imbalance-PLN" and the
    description "LIDL", a trigger of the rules; the assertion of
    [set_dst_account] stops the run and none of its splits is reassigned. *)
Lemma process_three_splits_not_reassigned :
  let w := Demo.running Demo.ledger3 in
  fst (process 0%nat Demo.rules 2026 3 w) = Raise AssertionError
  /\ account_lookup_by_path Demo.ledger3 (Some 0%nat) "Assets:Bank"
     = Ok (Some 2%nat)
  /\ selected Demo.ledger3 2%nat 2026 3 15%nat
  /\ In (Transaction_GetDescription Demo.ledger3 15%nat) ["LIDL"; "BIEDRONKA"]
  /\ forall s a,
       In (SetAccount s a) (trace (snd (process 0%nat Demo.rules 2026 3 w))) ->
       Split_parent Demo.ledger3 s <> 15%nat.
Proof.
  intros w. split; [vm_compute; reflexivity|].
  split; [vm_compute; reflexivity|]. split.
  - split; [exists 110%nat; split|split].
    + vm_compute; tauto.
    + vm_compute; reflexivity.
    + vm_compute; reflexivity.
    + vm_compute; reflexivity.
  - split; [left; reflexivity|].
    intros s a Hin. vm_compute in Hin.
    repeat (destruct Hin as [Hin|Hin];
            [try discriminate Hin;
             injection Hin as <- <-; vm_compute; discriminate|]).
    destruct Hin.
Qed.

Lemma run_events_not_session : forall evs,
  forallb run_event evs = true -> ~ In Save evs /\ ~ In End_ evs.
Proof.
  induction evs as [|e evs IH]; intros H; simpl in H.
  - split; intros [].
  - apply andb_true_iff in H. destruct H as (He & Hrest).
    destruct (IH Hrest) as (HS & HE).
    split; intros [E|Hin]; auto; subst e; discriminate He.
Qed.

(** C6, as amended: on every exit from the session block of [main] the
    session is closed, once and last.  The ledger is saved when the block
    completes: by the script's own call and again by the exit of the block,
    after every edit.  It is not saved when the block is left by a failure
    raised during processing: the script's call is skipped and the exit of
    the block, as the bindings define it, saves only when no exception
    occurred. *)
Theorem main_closes_and_saves_on_success : forall rules year month w,
  let r := fst (main rules year month w) in
  let w' := snd (main rules year month w) in
  exists evs,
    trace w' = trace w ++ evs ++ [End_]
    /\ ~ In End_ evs
    /\ (is_ok r = true ->
        exists run, evs = run ++ [Save; Save] /\ forallb run_event run = true)
    /\ (is_ok r = false -> ~ In Save evs).
Proof.
  intros rules year month w r w'. subst r w'.
  rewrite main_unfold.
  destruct (process (get_root_account (book w)) rules year month
              (mk_World (book w) (Some (get_price_db (book w))) (trace w)))
    as [r w1] eqn:E.
  destruct (process_run_events _ _ _ _ _ E) as (run & T & P).
  cbn [trace] in T. cbn [fst snd trace].
  destruct (run_events_not_session _ P) as (HS & HE).
  destruct r as [[]|e]; cbn [is_ok].
  - exists (run ++ [Save; Save]). rewrite T, <- !app_assoc.
    split; [reflexivity|]. split.
    + intros Hin. apply in_app_or in Hin.
      destruct Hin as [Hin|[Hin|[Hin|[]]]];
        [exact (HE Hin)|discriminate Hin|discriminate Hin].
    + split; [|discriminate]. intros _. exists run. split; [reflexivity|exact P].
  - exists run. rewrite T, <- app_assoc.
    split; [reflexivity|]. split; [exact HE|].
    split; [discriminate|]. intros _. exact HS.
Qed.

(** C6 as stated fails on a run that fails: on [Demo.ledger3] the
    processing moves two splits, then stops at the assertion; the session
    is ended and nothing is saved. *)
Lemma main_failure_not_saved :
  let run := main Demo.rules 2026 3 (Demo.opened Demo.ledger3) in
  fst run = Raise AssertionError
  /\ In (SetAccount 101%nat (Some 4%nat)) (trace (snd run))
  /\ ~ In Save (trace (snd run))
  /\ In End_ (trace (snd run)).
Proof.
  intros run. split; [vm_compute; reflexivity|].
  split; [vm_compute; tauto|]. split.
  - intros Hin. vm_compute in Hin.
    repeat (destruct Hin as [Hin|Hin]; [discriminate Hin|]). destruct Hin.
  - vm_compute. tauto.
Qed.


